(** * Label fading: the [RenderState] machine of harp.gl

    A shallow embedding of [RenderState] (lib/text/RenderState.ts), the
    per-label fading state machine of the map view, together with the data
    and the checks of the test of the text renderer
    (TextElementsRendererTest.ts), which say how a label is observed frame
    by frame.  The renderer itself is not among the sources; its effect on
    one label is modelled from the specification and run against that
    test.

    Numbers.  The source computes with JavaScript numbers.  Times, progress
    values and opacities are embedded as exact rationals ([Q]), frame numbers
    as integers ([Z]); every statement below is about the algorithm over
    exact numbers, rounding is out of scope.  [Q] is a setoid: [==] is used
    where a value is the result of a computation, [=] where the code stores
    a value as it is. *)

From Stdlib Require Import ZArith QArith Qminmax Bool List String Lia Lqa.
From Stdlib Require Import Morphisms Setoid Sorted.
Import ListNotations.
Local Open Scope Q_scope.

(** ** Numeric helpers *)

Definition Qlt_bool (x y : Q) : bool := negb (Qle_bool y x).

Module THREE.

(** [THREE.Math.clamp(value, min, max)] of three.js:
    [Math.max(min, Math.min(max, value))]. *)
Definition clamp (value min max : Q) : Q := Qmax min (Qmin max value).

End THREE.

Module MathUtils.

(** Modelled from the spec: [MathUtils.clamp] and [MathUtils.smootherStep]
    of the package [@here/harp-utils], which [RenderState.updateFading]
    calls and which is not among the sources.  The spec names the easing
    "smoother-step": the ratio [(x - edge0) / (edge1 - edge0)] is clamped
    to [0, 1] and fed to the polynomial [6x^5 - 15x^4 + 10x^3], written
    here in its usual Horner form. *)
Definition clamp (value min max : Q) : Q :=
  if Qlt_bool value min then min
  else if Qlt_bool max value then max
  else value.

(** Modelled from the spec: [MathUtils.smootherStep], missing from the
    sources like [MathUtils.clamp] above; the "smoother-step" easing of the
    spec. *)
Definition smootherStep (edge0 edge1 x : Q) : Q :=
  let x := clamp ((x - edge0) / (edge1 - edge0)) 0 1 in
  x * x * x * (x * (x * 6 - 15) + 10).

End MathUtils.

(** ** RenderState.ts *)

Inductive FadingState : Set :=
| Undefined
| FadingIn
| FadedIn
| FadingOut
| FadedOut.

(** The numeric values of the TypeScript enum. *)
Definition FadingState_value (s : FadingState) : Z :=
  match s with
  | Undefined => 0
  | FadingIn => 1
  | FadedIn => 2
  | FadingOut => -1
  | FadedOut => -2
  end%Z.

Definition FadingState_eqb (a b : FadingState) : bool :=
  (FadingState_value a =? FadingState_value b)%Z.

(** Time to fade in/fade out the labels in milliseconds. *)
Definition DEFAULT_FADE_TIME : Q := 800.

(** [Number.MIN_SAFE_INTEGER], -(2^53 - 1). *)
Definition MIN_SAFE_INTEGER : Z := (-9007199254740991)%Z.

Record RenderState : Set := mkRenderState {
  m_state : FadingState;
  m_visible : bool;
  value : Q;
  startTime : Q;
  opacity : Q;
  lastFrameNumber : Z
}.

(** Field assignments, [this.f = x]. *)
Definition set_m_state (x : FadingState) (this : RenderState) : RenderState :=
  mkRenderState x (m_visible this) (value this) (startTime this)
                (opacity this) (lastFrameNumber this).
Definition set_m_visible (x : bool) (this : RenderState) : RenderState :=
  mkRenderState (m_state this) x (value this) (startTime this)
                (opacity this) (lastFrameNumber this).
Definition set_value (x : Q) (this : RenderState) : RenderState :=
  mkRenderState (m_state this) (m_visible this) x (startTime this)
                (opacity this) (lastFrameNumber this).
Definition set_startTime (x : Q) (this : RenderState) : RenderState :=
  mkRenderState (m_state this) (m_visible this) (value this) x
                (opacity this) (lastFrameNumber this).
Definition set_opacity (x : Q) (this : RenderState) : RenderState :=
  mkRenderState (m_state this) (m_visible this) (value this) (startTime this)
                x (lastFrameNumber this).
Definition set_lastFrameNumber (x : Z) (this : RenderState) : RenderState :=
  mkRenderState (m_state this) (m_visible this) (value this) (startTime this)
                (opacity this) x.

(** A method that returns a value: the value and the object afterwards. *)
Definition Method (A : Type) : Type := RenderState -> A * RenderState.

Definition returned {A : Type} (m : Method A) (this : RenderState) : A :=
  fst (m this).
Definition after {A : Type} (m : Method A) (this : RenderState) : RenderState :=
  snd (m this).

(** [constructor(value = 0.0, startTime = 0, opacity = 1.0,
                 lastFrameNumber = Number.MIN_SAFE_INTEGER)] *)
Definition constructor (value startTime opacity : Q) (lastFrameNumber : Z)
  : RenderState :=
  mkRenderState Undefined false value startTime opacity lastFrameNumber.

(** [new RenderState()] *)
Definition newRenderState : RenderState :=
  constructor 0 0 1 MIN_SAFE_INTEGER.

Definition reset (this : RenderState) : RenderState :=
  let this := set_m_state Undefined this in
  let this := set_m_visible false this in
  let this := set_value 0 this in
  let this := set_startTime 0 this in
  let this := set_opacity 1 this in
  set_lastFrameNumber MIN_SAFE_INTEGER this.

Definition isUndefined (this : RenderState) : bool :=
  FadingState_eqb (m_state this) Undefined.

Definition isFading (this : RenderState) : bool :=
  FadingState_eqb (m_state this) FadingIn
  || FadingState_eqb (m_state this) FadingOut.

Definition isFadingIn (this : RenderState) : bool :=
  FadingState_eqb (m_state this) FadingIn.

Definition isFadingOut (this : RenderState) : bool :=
  FadingState_eqb (m_state this) FadingOut.

Definition isFadedIn (this : RenderState) : bool :=
  FadingState_eqb (m_state this) FadedIn.

Definition isFadedOut (this : RenderState) : bool :=
  FadingState_eqb (m_state this) FadedOut.

Definition isVisible (this : RenderState) : bool := m_visible this.

Definition startFadeIn (frameNumber : Z) (time : Q) (this : RenderState)
  : RenderState :=
  let this :=
    if (lastFrameNumber this <? frameNumber - 1)%Z then reset this else this in
  if FadingState_eqb (m_state this) FadingIn
     || FadingState_eqb (m_state this) FadedIn
  then this
  else
    let this :=
      if FadingState_eqb (m_state this) FadingOut then
        let this := set_value (1 - value this) this in
        set_startTime (time - value this * DEFAULT_FADE_TIME) this
      else
        let this := set_startTime time this in
        let this := set_value 0 this in
        set_opacity 0 this in
    let this := set_m_state FadingIn this in
    set_m_visible true this.

Definition startFadeOut (frameNumber : Z) (time : Q) (this : RenderState)
  : RenderState :=
  let this :=
    if (lastFrameNumber this <? frameNumber - 1)%Z then reset this else this in
  if FadingState_eqb (m_state this) FadingOut
     || FadingState_eqb (m_state this) FadedOut
  then this
  else
    let this :=
      if FadingState_eqb (m_state this) FadingIn then
        let this :=
          set_startTime (time - value this * DEFAULT_FADE_TIME) this in
        set_value (1 - value this) this
      else
        let this := set_startTime time this in
        let this := set_value 0 this in
        set_opacity 1 this in
    set_m_state FadingOut this.

(** [forceFadeIn] defaults to [false] in the source. *)
Definition checkStartFadeIn (frameNumber : Z) (time : Q) (forceFadeIn : bool)
  : Method bool := fun this =>
  let this :=
    if forceFadeIn
       || FadingState_eqb (m_state this) Undefined
       || (lastFrameNumber this <? frameNumber - 1)%Z
    then startFadeIn frameNumber time this
    else this in
  let this := set_lastFrameNumber frameNumber this in
  (isFading this, this).

(** [forceFadeOut] defaults to [true] in the source. *)
Definition checkStartFadeOut (frameNumber : Z) (time : Q) (forceFadeOut : bool)
  : Method bool := fun this =>
  let this :=
    if forceFadeOut
       || FadingState_eqb (m_state this) Undefined
       || (lastFrameNumber this <? frameNumber - 1)%Z
    then startFadeOut frameNumber time this
    else this in
  let this := set_lastFrameNumber frameNumber this in
  (isFading this, this).

Definition updateFading (time : Q) (disableFading : bool) : Method bool :=
  fun this =>
  if negb (FadingState_eqb (m_state this) FadingIn)
     && negb (FadingState_eqb (m_state this) FadingOut)
  then (m_visible this, this)
  else
    let this :=
      if Qeq_bool (startTime this) 0 then set_startTime time this else this in
    let fadingTime := time - startTime this in
    let startValue : Q :=
      if FadingState_eqb (m_state this) FadingIn then 0 else 1 in
    let endValue : Q :=
      if FadingState_eqb (m_state this) FadingIn then 1 else 0 in
    let this :=
      if disableFading || Qle_bool DEFAULT_FADE_TIME fadingTime then
        let this := set_value 1 this in
        let this := set_opacity endValue this in
        let this :=
          set_m_state
            (if FadingState_eqb (m_state this) FadingIn
             then FadedIn else FadedOut) this in
        set_m_visible (FadingState_eqb (m_state this) FadedIn) this
      else
        let this := set_value (fadingTime / DEFAULT_FADE_TIME) this in
        set_opacity
          (THREE.clamp
             (MathUtils.smootherStep startValue endValue (value this)) 0 1)
          this in
    (m_visible this, this).

(** ** Sequences of calls *)

Inductive Call : Type :=
| CallReset
| CallStartFadeIn (frameNumber : Z) (time : Q)
| CallStartFadeOut (frameNumber : Z) (time : Q)
| CallCheckStartFadeIn (frameNumber : Z) (time : Q) (forceFadeIn : bool)
| CallCheckStartFadeOut (frameNumber : Z) (time : Q) (forceFadeOut : bool)
| CallUpdateFading (time : Q) (disableFading : bool).

Definition call (c : Call) (this : RenderState) : RenderState :=
  match c with
  | CallReset => reset this
  | CallStartFadeIn frameNumber time => startFadeIn frameNumber time this
  | CallStartFadeOut frameNumber time => startFadeOut frameNumber time this
  | CallCheckStartFadeIn frameNumber time force =>
      after (checkStartFadeIn frameNumber time force) this
  | CallCheckStartFadeOut frameNumber time force =>
      after (checkStartFadeOut frameNumber time force) this
  | CallUpdateFading time disableFading =>
      after (updateFading time disableFading) this
  end.

(** The object after all the calls, and after each of them in turn. *)
Definition run (cs : list Call) (this : RenderState) : RenderState :=
  fold_left (fun this c => call c this) cs this.

Fixpoint history (cs : list Call) (this : RenderState) : list RenderState :=
  match cs with
  | [] => []
  | c :: cs => let this := call c this in this :: history cs this
  end.

(** ** Invariants *)

Definition opacity_in_range (this : RenderState) : Prop :=
  0 <= opacity this /\ opacity this <= 1.

(** What [isVisible] reports, state by state; a fade-out keeps whatever
    visibility the object had when the fade-out started. *)
Definition visible_coherent (this : RenderState) : Prop :=
  match m_state this with
  | Undefined | FadedOut => m_visible this = false
  | FadingIn | FadedIn => m_visible this = true
  | FadingOut => True
  end.

(** The object is stale at [frameNumber]: it was not updated in the frame
    before. *)
Definition stale (frameNumber : Z) (this : RenderState) : Prop :=
  (lastFrameNumber this < frameNumber - 1)%Z.


(** ** Vocabulary of [updateFading] *)

(** The start time [updateFading] works with: a [startTime] of 0 is first
    replaced by the current time. *)
Definition effectiveStartTime (time : Q) (this : RenderState) : Q :=
  if Qeq_bool (startTime this) 0 then time else startTime this.

(** The state a transition ends in. *)
Definition terminalState (s : FadingState) : FadingState :=
  match s with
  | FadingIn => FadedIn
  | FadingOut => FadedOut
  | s => s
  end.

(** [startValue] and [endValue] of [updateFading]: the opacity a transition
    starts from and ends at. *)
Definition startOpacity (s : FadingState) : Q :=
  if FadingState_eqb s FadingIn then 0 else 1.
Definition endOpacity (s : FadingState) : Q :=
  if FadingState_eqb s FadingIn then 1 else 0.

(** The opacity [updateFading] assigns at progress [v] of a transition. *)
Definition easedOpacity (s : FadingState) (v : Q) : Q :=
  THREE.clamp (MathUtils.smootherStep (startOpacity s) (endOpacity s) v) 0 1.

(** ** TextElementsRendererTest.ts

    The data and the checks of the test of the text renderer, for the test
    cases with one tile and one point label.  What the renderer draws for the
    label in a frame is an [option Q]: the opacity passed to
    [addTextBufferObject], or [None] when the label is not drawn.  A failed
    assertion is the result [None] of a check. *)

Module FadeState.
Inductive t : Set :=
| FadingIn
| FadedIn
| FadingOut
| FadedOut.
End FadeState.

Module TextElementsRendererTest.

(** time must not be 0 b/c 0 is used as a special value in
    TextElementsRenderer. *)
Definition INITIAL_TIME : Q := 1.

Definition FADE_CYCLE : list Q :=
  [ INITIAL_TIME;
    INITIAL_TIME + DEFAULT_FADE_TIME / 3;
    INITIAL_TIME + DEFAULT_FADE_TIME / 2;
    INITIAL_TIME + DEFAULT_FADE_TIME ].

(** The loop [for (let i = 1; i < n; ++i)] of [fadeNCycles], with [count]
    rounds left. *)
Fixpoint fadeNCycles_loop (count : nat) (i : Z) (result : list Q) : list Q :=
  match count with
  | O => result
  | S count =>
      fadeNCycles_loop count (i + 1)%Z
        (result
           ++ map (fun x => x + inject_Z i * DEFAULT_FADE_TIME)
                  (tl FADE_CYCLE))%list
  end.

Definition fadeNCycles (n : nat) : list Q :=
  match n with
  | O => []
  | S m => fadeNCycles_loop m 1 FADE_CYCLE
  end.

Definition FADE_2_CYCLES : list Q := fadeNCycles 2.

Definition FADE_IN : list FadeState.t :=
  [ FadeState.FadedOut; FadeState.FadingIn; FadeState.FadingIn;
    FadeState.FadedIn ].

Definition FADE_OUT : list FadeState.t :=
  [ FadeState.FadingOut; FadeState.FadingOut; FadeState.FadedOut ].

Definition FADE_IN_OUT : list FadeState.t := (FADE_IN ++ FADE_OUT)%list.

Definition fadedIn (frames : nat) : list FadeState.t :=
  repeat FadeState.FadedIn frames.

Definition fadedOut (frames : nat) : list FadeState.t :=
  repeat FadeState.FadedOut frames.

Definition fadeIn (frames : nat) : list FadeState.t :=
  if (frames <? List.length FADE_IN)%nat then firstn frames FADE_IN
  else (FADE_IN ++ fadedIn (frames - List.length FADE_IN))%list.

Definition fadeOut (frames : nat) : list FadeState.t :=
  if (frames <? List.length FADE_OUT)%nat then firstn frames FADE_OUT
  else (FADE_OUT ++ fadedOut (frames - List.length FADE_OUT))%list.

(** [new Array(frames.length).fill(false).fill(true, 0, n)] *)
Definition firstNFrames (frames : list Q) (n : nat) : list bool :=
  (repeat true (Nat.min n (List.length frames))
     ++ repeat false (List.length frames - n))%list.

Definition allFrames (frames : list Q) : list bool :=
  repeat true (List.length frames).

Inductive TextElementBuilder : Set :=
| pointTextBuilder
| poiBuilder
| lineMarkerBuilder
| pathTextBuilder.

Definition InputTextElement : Set := TextElementBuilder * list FadeState.t.

Definition builder (input : InputTextElement) : TextElementBuilder :=
  fst input.
Definition frameStates (input : InputTextElement) : list FadeState.t :=
  snd input.

Record InputTile : Set := mkInputTile {
  labels : list InputTextElement;
  (** Frames where tile will be visited (default: all) *)
  frames : option (list bool)
}.

Record TestCase : Set := mkTestCase {
  name : string;
  tiles : list InputTile;
  frameTimes : list Q;
  collisionFrames : option (list bool)
}.

(** The first and the fifth entry of [tests]. *)
Definition test_point_text_fades_in : TestCase :=
  mkTestCase "Newly visited, visible point text fades in"
             [ mkInputTile [ (pointTextBuilder, FADE_IN) ] None ]
             FADE_CYCLE None.

Definition test_non_visited_point_text_fades_out : TestCase :=
  mkTestCase "Non-visited, persistent point text fades out"
             [ mkInputTile [ (pointTextBuilder, FADE_IN_OUT) ]
                           (Some (firstNFrames FADE_2_CYCLES 3)) ]
             FADE_2_CYCLES None.

(** [checkOpacity]: the opacity is within [0, 1] and accepted by the
    matcher. *)
Definition checkOpacity (actualOpacity : Q) (opacityMatcher : Q -> bool)
  : bool :=
  Qle_bool 0 actualOpacity && Qle_bool actualOpacity 1
  && opacityMatcher actualOpacity.

(** [checkTextElementRendered] for a point text
    ([checkPointTextRendered]): the label was drawn, once, and its
    opacity passes [checkOpacity]; returns that opacity. *)
Definition checkTextElementRendered
           (rendered : option Q) (opacityMatcher : Q -> bool) : option Q :=
  match rendered with
  | Some actualOpacity =>
      if checkOpacity actualOpacity opacityMatcher
      then Some actualOpacity else None
  | None => None
  end.

(** [checkTextElementNotRendered] for a point text. *)
Definition checkTextElementNotRendered (rendered : option Q) : bool :=
  match rendered with
  | Some _ => false
  | None => true
  end.

Definition checkTextElementState
           (rendered : option Q) (expectedState : FadeState.t)
           (prevOpacity : Q) : option Q :=
  match expectedState with
  | FadeState.FadingIn =>
      checkTextElementRendered rendered
        (fun opacity => Qlt_bool prevOpacity opacity)
  | FadeState.FadingOut =>
      checkTextElementRendered rendered
        (fun opacity => Qlt_bool opacity prevOpacity)
  | FadeState.FadedIn =>
      checkTextElementRendered rendered (fun opacity => Qeq_bool opacity 1)
  | FadeState.FadedOut =>
      if checkTextElementNotRendered rendered then Some 0 else None
  end.

Section Frames.

(** The renderer under test, as far as one label is concerned:
    [placeText frameNumber time visited label] is the label after the
    frame and what was drawn for it, [visited] telling whether the
    label's tile is among the visible tiles of the frame. *)
Context {Label : Type}.
Variable placeText : Z -> Q -> bool -> Label -> Label * option Q.

(** The loop over [test.frameTimes] of a test: [renderFrame] (which
    increments the frame number and calls [placeText]), then
    [checkTextElementState] against the expected state of the frame. *)
Fixpoint checkFrames (frameNumber : Z) (frameTimes : list Q)
         (visited : list bool) (states : list FadeState.t)
         (label : Label) (prevOpacity : Q) : bool :=
  match frameTimes, visited, states with
  | [], _, _ => true
  | frameTime :: frameTimes, v :: visited, expectedState :: states =>
      let frameNumber := (frameNumber + 1)%Z in
      let (label, rendered) := placeText frameNumber frameTime v label in
      match checkTextElementState rendered expectedState prevOpacity with
      | Some newOpacity =>
          checkFrames frameNumber frameTimes visited states label
                      newOpacity
      | None => false
      end
  | _, _, _ => false
  end.

(** A test case with one tile and one label: [initTest] renders an extra
    frame at [INITIAL_TIME] with the tile visible (frame number 1, frame
    number 0 being the initialization in [setUp], before the label
    exists), then the frames of the test follow. *)
Definition runTest (test : TestCase) (label : Label) : bool :=
  match tiles test with
  | [ mkInputTile [ input ] tileFrames ] =>
      let visited :=
        match tileFrames with
        | Some fs => fs
        | None => allFrames (frameTimes test)
        end in
      let (label, _) := placeText 1 INITIAL_TIME true label in
      checkFrames 1 (frameTimes test) visited (frameStates input) label 0
  | _ => false
  end.

(** The label and what is drawn for it, frame after frame. *)
Fixpoint frameHistory (frameNumber : Z) (frameTimes : list Q)
         (visited : list bool) (label : Label)
  : list (Label * option Q) :=
  match frameTimes, visited with
  | frameTime :: frameTimes, v :: visited =>
      let frameNumber := (frameNumber + 1)%Z in
      let r := placeText frameNumber frameTime v label in
      r :: frameHistory frameNumber frameTimes visited (fst r)
  | _, _ => []
  end.

End Frames.

End TextElementsRendererTest.

(** ** The placement pass, for one label

    [TextElementsRenderer.placeText], the Placement Orchestrator of the
    spec, is not among the sources.  What follows is its effect on a single
    point label that collides with nothing and has no duplicate: the label
    is placed in every frame in which its tile is visited. *)

Module TextElementsRenderer.

(** Modelled from the spec: the fade update of the placement pass (4.3,
    step 5) for the one [RenderState] of a point text, the spec's
    FadeState; the caller of [updateFading], [checkStartFadeIn] and
    [checkStartFadeOut] is missing from the sources.  The opacity is
    brought up to the time of the frame with [updateFading], then "placed
    -> checkStartFadeIn; not placed -> checkStartFadeOut", each with the
    default of its force flag.  The spec does not order the two steps;
    [updateFirst] chooses between them. *)
Definition fadeUpdate (updateFirst placed : bool) (frameNumber : Z)
           (time : Q) (renderState : RenderState) : RenderState :=
  let check renderState :=
    if placed
    then after (checkStartFadeIn frameNumber time false) renderState
    else after (checkStartFadeOut frameNumber time true) renderState in
  if updateFirst
  then check (after (updateFading time false) renderState)
  else after (updateFading time false) (check renderState).

(** Modelled from the spec: step 6 of the placement pass, missing from the
    sources: a render call "carrying the just-computed opacity, for every
    candidate whose FadeState reports visible (opacity > 0)". *)
Definition renderedOpacity (renderState : RenderState) : option Q :=
  if isVisible renderState && Qlt_bool 0 (opacity renderState)
  then Some (opacity renderState)
  else None.

(** Modelled from the spec: one placement pass (4.3), missing from the
    sources, for that one label.  The label of a visited tile is a
    candidate (step 1, "collect all TextElements from tiles currently
    marked visible/rendered"); colliding with nothing, it is placed (step
    4), its fade is updated as that of a placed label (step 5) and it is
    drawn when it is visible (step 6).  The label of a tile that is not
    visited is not collected: it is "left untouched (their FadeState is
    frozen -- not advanced, not reset)" (step 5) and, not being a
    candidate, it gets no render call (step 6).  Tiles are not evicted
    here: the label is there for the whole run. *)
Definition placeText (updateFirst : bool) (frameNumber : Z) (time : Q)
           (visited : bool) (renderState : RenderState)
  : RenderState * option Q :=
  if visited then
    let renderState :=
      fadeUpdate updateFirst true frameNumber time renderState in
    (renderState, renderedOpacity renderState)
  else
    (renderState, None).

End TextElementsRenderer.

(** What a frame shows of the label: its state, its opacity and the
    opacity it was drawn with, the rationals in lowest terms. *)
Definition observed (r : RenderState * option Q)
  : FadingState * Q * option Q :=
  (m_state (fst r), Qred (opacity (fst r)), option_map Qred (snd r)).

(** A label that is not visible and not on its way in. *)
Definition hidden (this : RenderState) : Prop :=
  m_visible this = false
  /\ m_state this <> FadingIn /\ m_state this <> FadedIn.

(** ** Scenarios *)

(** A fade-in started at time 800 and updated at time
    1000, a quarter of the fade time later. *)
Definition quarterFadedIn : RenderState :=
  after (updateFading 1000 false)
        (after (checkStartFadeIn 9 800 false) newRenderState).

(** A fade-out started at time 800 from a label that had faded in, updated
    at time 1000. *)
Definition quarterFadedOut : RenderState :=
  after (updateFading 1000 false)
        (after (checkStartFadeOut 9 800 true)
               (mkRenderState FadedIn true 1 0 1 8)).

(** A fade-in started at time 0. *)
Definition fadeInStartedAtZero : RenderState :=
  startFadeIn 1 0 newRenderState.

(** A fade-out started on a label that never faded in. *)
Definition fadeOutFromUndefined : RenderState :=
  startFadeOut 2 1 newRenderState.

(** One tile, one point label, placement passes at the times 1, 267, 400
    and 801, with the frame numbers 1 to 4. *)
Definition fadeInTimes : list Q := [1; 267; 400; 801].

Definition fadeInScenario : list (RenderState * option Q) :=
  TextElementsRendererTest.frameHistory
    (TextElementsRenderer.placeText true) 0 fadeInTimes
    [true; true; true; true] newRenderState.



(** ** More of RenderState.ts: what the faded states look like *)

(** The end of a transition: [updateFading] leaves [value] at 1 and the
    opacity at the end value when it enters [FadedIn] or [FadedOut]. *)
Definition terminal_coherent (this : RenderState) : Prop :=
  match m_state this with
  | FadedIn => opacity this = 1 /\ value this = 1 /\ m_visible this = true
  | FadedOut => opacity this = 0 /\ value this = 1 /\ m_visible this = false
  | _ => True
  end.

(** The two transition checks, [checkStartFadeIn] for [true] and
    [checkStartFadeOut] for [false]. *)
Definition checkStart (fadeIn : bool) (frameNumber : Z) (time : Q)
           (force : bool) : Method bool :=
  if fadeIn then checkStartFadeIn frameNumber time force
  else checkStartFadeOut frameNumber time force.

(** ** More of TextElementsRendererTest.ts: the frame flags *)

Module FrameFlags.

(** [Array.prototype.fill(value, start, end)] on a list: a negative index
    counts from the end, indices are clipped to the length, and the
    elements from the start index up to, not including, the end index are
    replaced. *)
Definition relativeIndex (len : nat) (i : Z) : nat :=
  if (i <? 0)%Z then Z.to_nat (Z.max (Z.of_nat len + i) 0)
  else Nat.min (Z.to_nat i) len.

Fixpoint fill_from {A : Type} (i : nat) (value : A) (k final : nat)
         (l : list A) : list A :=
  match l with
  | [] => []
  | x :: l =>
      (if (k <=? i)%nat && (i <? final)%nat then value else x)
        :: fill_from (S i) value k final l
  end.

Definition fill {A : Type} (value : A) (start end_ : Z) (l : list A)
  : list A :=
  fill_from 0 value (relativeIndex (List.length l) start)
            (relativeIndex (List.length l) end_) l.

(** [new Array<boolean>(n).fill(false)] *)
Definition newFalseArray (n : nat) : list bool := repeat false n.

(** [firstNFrames] as the source writes it,
    [new Array(frames.length).fill(false).fill(true, 0, n)]. *)
Definition firstNFrames_fill (frames : list Q) (n : nat) : list bool :=
  fill true 0 (Z.of_nat n) (newFalseArray (List.length frames)).

Definition not (input : list bool) : list bool := map negb input.

(** [new Array(frames.length).fill(false).fill(true, -n)]: the end index
    defaults to the length. *)
Definition lastNFrames (frames : list Q) (n : nat) : list bool :=
  fill true (- Z.of_nat n) (Z.of_nat (List.length frames))
       (newFalseArray (List.length frames)).

End FrameFlags.

(** ** TiledGeoJsonDataAdapter.ts

    The adapter that feeds the features of a tiled GeoJSON object to a
    geometry processor.  The points, the projection and the decoding
    information come from other packages: they are parameters here.  The
    calls made on the processor are collected in a list. *)

Module TiledGeoJsonDataAdapter.

Local Open Scope string_scope.

Definition DEFAULT_EXTENTS : Z := 4 * 1024.

(** A property value of a feature or of the environment. *)
Inductive Value : Type :=
| VNumber (n : Z)
| VString (s : string)
| VBoolean (b : bool).

(** An object with string keys, its properties in order: [{...o, k: v}]
    overwrites the value of a key that is there and appends a new key. *)
Definition ValueMap : Type := list (string * Value).

Fixpoint get (k : string) (o : ValueMap) : option Value :=
  match o with
  | [] => None
  | (k', v) :: o => if String.eqb k k' then Some v else get k o
  end.

Fixpoint set (k : string) (v : Value) (o : ValueMap) : ValueMap :=
  match o with
  | [] => [(k, v)]
  | (k', v') :: o =>
      if String.eqb k k' then (k, v) :: o else (k', v') :: set k v o
  end.

(** An object literal: the properties are defined from left to right. *)
Definition objectLiteral (entries : list (string * Value)) : ValueMap :=
  fold_left (fun o kv => set (fst kv) (snd kv) o) entries [].

Set Implicit Arguments.

Section Geometry.

Variables GeoPointLike GeoCoordinates Vector2 Vector3 DecodeInfo : Type.

(** [GeoCoordinates.fromGeoPoint], [webMercatorProjection.projectPoint]
    and [world2tile(extents, decodeInfo, worldPos, flipY, target)]. *)
Variable fromGeoPoint : GeoPointLike -> GeoCoordinates.
Variable projectPoint : GeoCoordinates -> Vector3.
Variable world2tile : Z -> DecodeInfo -> Vector3 -> bool -> Vector2.

(** [decodeInfo.tileKey.level] *)
Variable level : DecodeInfo -> Z.

Inductive GeoJsonGeometry : Type :=
| LineString (coordinates : list GeoPointLike)
| MultiLineString (coordinates : list (list GeoPointLike))
| Polygon (coordinates : list (list GeoPointLike))
| MultiPolygon (coordinates : list (list (list GeoPointLike)))
| Point (coordinates : GeoPointLike)
| MultiPoint (coordinates : list GeoPointLike).

(** The [type] field of a geometry. *)
Definition type (geometry : GeoJsonGeometry) : string :=
  match geometry with
  | LineString _ => "LineString"
  | MultiLineString _ => "MultiLineString"
  | Polygon _ => "Polygon"
  | MultiPolygon _ => "MultiPolygon"
  | Point _ => "Point"
  | MultiPoint _ => "MultiPoint"
  end.

Record GeoJsonFeature : Type := mkGeoJsonFeature {
  properties : ValueMap;
  geometry : GeoJsonGeometry
}.







Definition convertGeometryType (type : string) : string :=
  if String.eqb type "LineString" then "line"
  else if String.eqb type "MultiLineString" then "line"
  else if String.eqb type "Polygon" then "polygon"
  else if String.eqb type "MultiPolygon" then "polygon"
  else if String.eqb type "Point" then "point"
  else if String.eqb type "MultiPoint" then "point"
  else "unknown".

Definition convertPoint (geoPoint : GeoPointLike) (decodeInfo : DecodeInfo)
  : Vector2 :=
  world2tile DEFAULT_EXTENTS decodeInfo
             (projectPoint (fromGeoPoint geoPoint)) true.

Record ILineGeometry : Type := mkILineGeometry {
  untiledPositions : list GeoCoordinates;
  positions : list Vector2
}.

Record IPolygonGeometry : Type := mkIPolygonGeometry {
  rings : list (list Vector2)
}.

Definition convertLineStringGeometry
           (coordinates : list GeoPointLike) (decodeInfo : DecodeInfo)
  : ILineGeometry :=
  let untiledPositions :=
    map (fun geoPoint => fromGeoPoint geoPoint) coordinates in
  let positions :=
    map (fun geoPoint => convertPoint geoPoint decodeInfo) coordinates in
  mkILineGeometry untiledPositions positions.

(** The three converters take the two geometries of their kind; on any
    other they would read [coordinates] at the wrong depth, which the type
    of their parameter excludes: [None]. *)
Definition convertLineGeometry
           (geometry : GeoJsonGeometry) (decodeInfo : DecodeInfo)
  : option (list ILineGeometry) :=
  match geometry with
  | LineString coordinates =>
      Some [convertLineStringGeometry coordinates decodeInfo]
  | MultiLineString coordinates =>
      Some (map (fun lineString =>
                   convertLineStringGeometry lineString decodeInfo)
                coordinates)
  | _ => None
  end.

Definition convertRings
           (coordinates : list (list GeoPointLike)) (decodeInfo : DecodeInfo)
  : IPolygonGeometry :=
  let rings :=
    map (fun ring => positions (convertLineStringGeometry ring decodeInfo))
        coordinates in
  mkIPolygonGeometry rings.

Definition convertPolygonGeometry
           (geometry : GeoJsonGeometry) (decodeInfo : DecodeInfo)
  : option (list IPolygonGeometry) :=
  match geometry with
  | Polygon coordinates => Some [convertRings coordinates decodeInfo]
  | MultiPolygon coordinates =>
      Some (map (fun polygon => convertRings polygon decodeInfo) coordinates)
  | _ => None
  end.

Definition convertPointGeometry
           (geometry : GeoJsonGeometry) (decodeInfo : DecodeInfo)
  : option (list Vector2) :=
  match geometry with
  | Point coordinates => Some [convertPoint coordinates decodeInfo]
  | MultiPoint coordinates =>
      Some (map (fun geoPoint => convertPoint geoPoint decodeInfo)
                coordinates)
  | _ => None
  end.




(** A call of a method of the [IGeometryProcessor], with its arguments:
    layer, extents, geometry, environment, storage level. *)
Inductive ProcessorCall : Type :=
| processLineFeature
    (layer : string) (extents : Z) (geometry : list ILineGeometry)
    (env : ValueMap) (storageLevel : Z)
| processPolygonFeature
    (layer : string) (extents : Z) (geometry : list IPolygonGeometry)
    (env : ValueMap) (storageLevel : Z)
| processPointFeature
    (layer : string) (extents : Z) (geometry : list Vector2)
    (env : ValueMap) (storageLevel : Z).

(** The object literal given to [new MapEnv]; [storageLevelOffset] is the
    optional property of the processor, [x || 0] in the source. *)
Definition featureEnv (storageLevelOffset : option Z) (layerName : string)
           (feature : GeoJsonFeature) (decodeInfo : DecodeInfo) : ValueMap :=
  let offset :=
    match storageLevelOffset with
    | Some x => if (x =? 0)%Z then 0%Z else x
    | None => 0%Z
    end in
  fold_left (fun o kv => set (fst kv) (snd kv) o)
            [ ("$layer", VString layerName);
              ("$geometryType",
               VString (convertGeometryType (type (geometry feature))));
              ("$level", VNumber (level decodeInfo));
              ("$zoom", VNumber (Z.max 0 (level decodeInfo - offset))) ]
            (objectLiteral (properties feature)).

(** The body of the loop over the features of a layer: the processor calls
    it makes, none for a geometry the [switch] has no case for. *)
Definition processFeature (storageLevelOffset : option Z)
           (layerName : string) (feature : GeoJsonFeature)
           (decodeInfo : DecodeInfo) : list ProcessorCall :=
  let env := featureEnv storageLevelOffset layerName feature decodeInfo in
  let t := type (geometry feature) in
  if String.eqb t "LineString" || String.eqb t "MultiLineString" then
    match convertLineGeometry (geometry feature) decodeInfo with
    | Some geometry =>
        [processLineFeature layerName DEFAULT_EXTENTS geometry env
                            (level decodeInfo)]
    | None => []
    end
  else if String.eqb t "Polygon" || String.eqb t "MultiPolygon" then
    match convertPolygonGeometry (geometry feature) decodeInfo with
    | Some geometry =>
        [processPolygonFeature layerName DEFAULT_EXTENTS geometry env
                               (level decodeInfo)]
    | None => []
    end
  else if String.eqb t "Point" || String.eqb t "MultiPoint" then
    match convertPointGeometry (geometry feature) decodeInfo with
    | Some geometry =>
        [processPointFeature layerName DEFAULT_EXTENTS geometry env
                             (level decodeInfo)]
    | None => []
    end
  else [].





(** The kind of geometry a processor call is for, in the words of
    [convertGeometryType], and the environment it carries. *)
Definition callKind (c : ProcessorCall) : string :=
  match c with
  | processLineFeature _ _ _ _ _ => "line"
  | processPolygonFeature _ _ _ _ _ => "polygon"
  | processPointFeature _ _ _ _ _ => "point"
  end.

Definition callEnv (c : ProcessorCall) : ValueMap :=
  match c with
  | processLineFeature _ _ _ env _ => env
  | processPolygonFeature _ _ _ env _ => env
  | processPointFeature _ _ _ env _ => env
  end.

Definition callLayer (c : ProcessorCall) : string :=
  match c with
  | processLineFeature layer _ _ _ _ => layer
  | processPolygonFeature layer _ _ _ _ => layer
  | processPointFeature layer _ _ _ _ => layer
  end.

End Geometry.

Unset Implicit Arguments.

End TiledGeoJsonDataAdapter.

(** ** Tactics *)

(** Case analysis on the test of a conditional. *)
Ltac case_if :=
  match goal with
  | |- context [if ?b then _ else _] =>
      let E := fresh "E" in destruct b eqn:E
  end.

(** Closed comparisons of rationals, by computation. *)
Ltac by_computation :=
  vm_compute; first [ reflexivity | discriminate | intro; discriminate ].

(** Lists of explicit rationals: sorted, or bounded, element by element. *)
Ltac sorted_by_lra :=
  repeat first [ apply SSorted_nil | apply SSorted_cons
               | apply Forall_nil | apply Forall_cons ];
  unfold Qdiv; change (/ 3) with (1 # 3); change (/ 2) with (1 # 2); lra.

(** * Proofs *)

(** ** Numbers *)

Lemma Qlt_bool_iff (x y : Q) : Qlt_bool x y = true <-> x < y.
Proof.
  unfold Qlt_bool. rewrite negb_true_iff, <- not_true_iff_false, Qle_bool_iff.
  split; intro H; [ apply Qnot_le_lt | apply Qlt_not_le ]; exact H.
Qed.

Lemma Qlt_bool_false (x y : Q) : Qlt_bool x y = false <-> y <= x.
Proof. unfold Qlt_bool. rewrite negb_false_iff. apply Qle_bool_iff. Qed.

Lemma Qle_bool_false (x y : Q) : Qle_bool x y = false <-> y < x.
Proof.
  rewrite <- not_true_iff_false, Qle_bool_iff.
  split; intro H; [ apply Qnot_le_lt | apply Qlt_not_le ]; exact H.
Qed.

Lemma Qeq_bool_false (x y : Q) : Qeq_bool x y = false <-> ~ x == y.
Proof. rewrite <- not_true_iff_false, Qeq_bool_iff. tauto. Qed.

#[global] Instance Qlt_bool_Proper : Proper (Qeq ==> Qeq ==> eq) Qlt_bool.
Proof. intros x x' Hx y y' Hy. unfold Qlt_bool. now rewrite Hx, Hy. Qed.

#[global] Instance THREE_clamp_Proper :
  Proper (Qeq ==> Qeq ==> Qeq ==> Qeq) THREE.clamp.
Proof.
  intros x x' Hx a a' Ha b b' Hb. unfold THREE.clamp. now rewrite Hx, Ha, Hb.
Qed.

#[global] Instance MathUtils_clamp_Proper :
  Proper (Qeq ==> Qeq ==> Qeq ==> Qeq) MathUtils.clamp.
Proof.
  intros x x' Hx a a' Ha b b' Hb. unfold MathUtils.clamp.
  rewrite <- (Qlt_bool_Proper x x' Hx a a' Ha).
  rewrite <- (Qlt_bool_Proper b b' Hb x x' Hx).
  destruct (Qlt_bool x a); [ exact Ha | ].
  destruct (Qlt_bool b x); [ exact Hb | exact Hx ].
Qed.

#[global] Instance smootherStep_Proper :
  Proper (Qeq ==> Qeq ==> Qeq ==> Qeq) MathUtils.smootherStep.
Proof.
  intros a a' Ha b b' Hb x x' Hx. unfold MathUtils.smootherStep.
  assert (E : MathUtils.clamp ((x - a) / (b - a)) 0 1
              == MathUtils.clamp ((x' - a') / (b' - a')) 0 1)
    by now rewrite Ha, Hb, Hx.
  now rewrite E.
Qed.

Lemma THREE_clamp_unit (x : Q) :
  0 <= THREE.clamp x 0 1 /\ THREE.clamp x 0 1 <= 1.
Proof.
  unfold THREE.clamp. split.
  - apply Q.le_max_l.
  - apply Q.max_lub; [ lra | apply Q.le_min_l ].
Qed.

Lemma THREE_clamp_id (x : Q) : 0 <= x -> x <= 1 -> THREE.clamp x 0 1 == x.
Proof.
  intros H0 H1. unfold THREE.clamp.
  rewrite (Q.min_r 1 x H1). apply Q.max_r. exact H0.
Qed.

Lemma MathUtils_clamp_id (x : Q) :
  0 <= x -> x <= 1 -> MathUtils.clamp x 0 1 = x.
Proof.
  intros H0 H1. unfold MathUtils.clamp.
  destruct (Qlt_bool x 0) eqn:E0.
  - apply Qlt_bool_iff in E0. lra.
  - destruct (Qlt_bool 1 x) eqn:E1; [ apply Qlt_bool_iff in E1; lra | ].
    reflexivity.
Qed.

(** Fading in eases along [x], fading out along [1 - x]. *)
Lemma smootherStep_out_in (x : Q) :
  MathUtils.smootherStep 1 0 x == MathUtils.smootherStep 0 1 (1 - x).
Proof.
  unfold MathUtils.smootherStep.
  assert (E : MathUtils.clamp ((x - 1) / (0 - 1)) 0 1
              == MathUtils.clamp ((1 - x - 0) / (1 - 0)) 0 1).
  { apply MathUtils_clamp_Proper; try reflexivity. field. }
  now rewrite E.
Qed.

(** ** The methods, case by case *)

Lemma FadingState_eqb_eq (a b : FadingState) :
  FadingState_eqb a b = true <-> a = b.
Proof. destruct a, b; cbv; split; congruence. Qed.

Lemma startFadeIn_eq (frameNumber : Z) (time : Q) (this : RenderState) :
  startFadeIn frameNumber time this =
  let this :=
    if (lastFrameNumber this <? frameNumber - 1)%Z then reset this else this in
  match m_state this with
  | FadingIn | FadedIn => this
  | FadingOut =>
      mkRenderState FadingIn true (1 - value this)
                    (time - (1 - value this) * DEFAULT_FADE_TIME)
                    (opacity this) (lastFrameNumber this)
  | Undefined | FadedOut =>
      mkRenderState FadingIn true 0 time 0 (lastFrameNumber this)
  end.
Proof.
  unfold startFadeIn.
  destruct (lastFrameNumber this <? frameNumber - 1)%Z.
  - reflexivity.
  - destruct this as [st vis v s o l]; destruct st; reflexivity.
Qed.

Lemma startFadeOut_eq (frameNumber : Z) (time : Q) (this : RenderState) :
  startFadeOut frameNumber time this =
  let this :=
    if (lastFrameNumber this <? frameNumber - 1)%Z then reset this else this in
  match m_state this with
  | FadingOut | FadedOut => this
  | FadingIn =>
      mkRenderState FadingOut (m_visible this) (1 - value this)
                    (time - value this * DEFAULT_FADE_TIME)
                    (opacity this) (lastFrameNumber this)
  | Undefined | FadedIn =>
      mkRenderState FadingOut (m_visible this) 0 time 1 (lastFrameNumber this)
  end.
Proof.
  unfold startFadeOut.
  destruct (lastFrameNumber this <? frameNumber - 1)%Z.
  - reflexivity.
  - destruct this as [st vis v s o l]; destruct st; reflexivity.
Qed.

Lemma updateFading_eq (time : Q) (disableFading : bool) (this : RenderState) :
  updateFading time disableFading this =
  let start := effectiveStartTime time this in
  let progress := (time - start) / DEFAULT_FADE_TIME in
  match m_state this with
  | FadingIn =>
      if disableFading || Qle_bool DEFAULT_FADE_TIME (time - start)
      then (true, mkRenderState FadedIn true 1 start 1 (lastFrameNumber this))
      else (m_visible this,
            mkRenderState FadingIn (m_visible this) progress start
                          (easedOpacity FadingIn progress)
                          (lastFrameNumber this))
  | FadingOut =>
      if disableFading || Qle_bool DEFAULT_FADE_TIME (time - start)
      then (false,
            mkRenderState FadedOut false 1 start 0 (lastFrameNumber this))
      else (m_visible this,
            mkRenderState FadingOut (m_visible this) progress start
                          (easedOpacity FadingOut progress)
                          (lastFrameNumber this))
  | Undefined | FadedIn | FadedOut => (m_visible this, this)
  end.
Proof.
  unfold updateFading, effectiveStartTime.
  destruct this as [st vis v s o l]; destruct st; try reflexivity;
    cbn [startTime]; destruct (Qeq_bool s 0);
    destruct disableFading; try reflexivity;
    cbn [orb m_state FadingState_eqb negb andb set_startTime startTime];
    match goal with
    | |- context [Qle_bool ?a ?b] => destruct (Qle_bool a b)
    end;
    reflexivity.
Qed.

Lemma checkStartFadeIn_after
      (frameNumber : Z) (time : Q) (force : bool) (this : RenderState) :
  after (checkStartFadeIn frameNumber time force) this =
  set_lastFrameNumber frameNumber
    (if force || FadingState_eqb (m_state this) Undefined
        || (lastFrameNumber this <? frameNumber - 1)%Z
     then startFadeIn frameNumber time this else this).
Proof. reflexivity. Qed.

Lemma checkStartFadeOut_after
      (frameNumber : Z) (time : Q) (force : bool) (this : RenderState) :
  after (checkStartFadeOut frameNumber time force) this =
  set_lastFrameNumber frameNumber
    (if force || FadingState_eqb (m_state this) Undefined
        || (lastFrameNumber this <? frameNumber - 1)%Z
     then startFadeOut frameNumber time this else this).
Proof. reflexivity. Qed.

(** Every method: an invariant of [reset], [startFadeIn], [startFadeOut]
    and [updateFading] that does not mention the frame number is an
    invariant of every call. *)
Lemma call_invariant (P : RenderState -> Prop) :
  (forall this, P (reset this)) ->
  (forall f t this, P this -> P (startFadeIn f t this)) ->
  (forall f t this, P this -> P (startFadeOut f t this)) ->
  (forall t d this, P this -> P (after (updateFading t d) this)) ->
  (forall n this, P this -> P (set_lastFrameNumber n this)) ->
  forall c this, P this -> P (call c this).
Proof.
  intros Hreset Hin Hout Hupdate Hstamp c this H. destruct c; cbn [call].
  - apply Hreset.
  - now apply Hin.
  - now apply Hout.
  - rewrite checkStartFadeIn_after. apply Hstamp. case_if; auto.
  - rewrite checkStartFadeOut_after. apply Hstamp. case_if; auto.
  - now apply Hupdate.
Qed.

Lemma history_invariant (P : RenderState -> Prop) :
  (forall c this, P this -> P (call c this)) ->
  forall cs this, P this -> Forall P (history cs this).
Proof.
  intros Hcall cs. induction cs as [| c cs IH]; intros this H; cbn [history].
  - constructor.
  - constructor; [ | apply IH ]; now apply Hcall.
Qed.

Lemma run_invariant (P : RenderState -> Prop) :
  (forall c this, P this -> P (call c this)) ->
  forall cs this, P this -> P (run cs this).
Proof.
  intros Hcall cs. unfold run.
  induction cs as [| c cs IH]; intros this H; cbn [fold_left].
  - exact H.
  - apply IH. now apply Hcall.
Qed.

(** ** The opacity stays in [0, 1] *)

Lemma reset_opacity (this : RenderState) : opacity_in_range (reset this).
Proof.
  unfold opacity_in_range, reset.
  cbn [opacity set_lastFrameNumber set_opacity]. lra.
Qed.

Lemma startFadeIn_opacity (frameNumber : Z) (time : Q) (this : RenderState) :
  opacity_in_range this ->
  opacity_in_range (startFadeIn frameNumber time this).
Proof.
  intro H. rewrite startFadeIn_eq. cbv zeta.
  assert (H' : opacity_in_range
                 (if (lastFrameNumber this <? frameNumber - 1)%Z
                  then reset this else this))
    by (case_if; [ apply reset_opacity | exact H ]).
  revert H'. generalize (if (lastFrameNumber this <? frameNumber - 1)%Z
                         then reset this else this).
  intros [st vis v s o l]. unfold opacity_in_range.
  destruct st; cbn [m_state opacity]; lra.
Qed.

Lemma startFadeOut_opacity (frameNumber : Z) (time : Q) (this : RenderState) :
  opacity_in_range this ->
  opacity_in_range (startFadeOut frameNumber time this).
Proof.
  intro H. rewrite startFadeOut_eq. cbv zeta.
  assert (H' : opacity_in_range
                 (if (lastFrameNumber this <? frameNumber - 1)%Z
                  then reset this else this))
    by (case_if; [ apply reset_opacity | exact H ]).
  revert H'. generalize (if (lastFrameNumber this <? frameNumber - 1)%Z
                         then reset this else this).
  intros [st vis v s o l]. unfold opacity_in_range.
  destruct st; cbn [m_state opacity]; lra.
Qed.

Lemma updateFading_opacity
      (time : Q) (disableFading : bool) (this : RenderState) :
  opacity_in_range this ->
  opacity_in_range (after (updateFading time disableFading) this).
Proof.
  unfold after. rewrite updateFading_eq. cbv zeta.
  unfold opacity_in_range, easedOpacity. intros [H0 H1].
  destruct (m_state this); try case_if; cbn [snd opacity];
    try (split; assumption); try lra; apply THREE_clamp_unit.
Qed.

Lemma call_opacity (c : Call) (this : RenderState) :
  opacity_in_range this -> opacity_in_range (call c this).
Proof.
  apply call_invariant.
  - apply reset_opacity.
  - apply startFadeIn_opacity.
  - apply startFadeOut_opacity.
  - apply updateFading_opacity.
  - intros n s H. exact H.
Qed.

(** * The fading machine, claim by claim *)

(** C2, as the claim words it, fails at the constructor, which stores the
    opacity it is given without a check: [new RenderState(0, 0, 2)] has
    opacity 2, and so it has after [updateFading(5, false)], which leaves
    an object that is not fading as it is. *)
Lemma constructor_opacity_counterexample :
  opacity (constructor 0 0 2 MIN_SAFE_INTEGER) = 2
  /\ ~ opacity_in_range (constructor 0 0 2 MIN_SAFE_INTEGER)
  /\ opacity (call (CallUpdateFading 5 false)
                   (constructor 0 0 2 MIN_SAFE_INTEGER)) = 2
  /\ ~ Forall opacity_in_range
             (constructor 0 0 2 MIN_SAFE_INTEGER
                :: history [CallUpdateFading 5 false]
                           (constructor 0 0 2 MIN_SAFE_INTEGER)).
Proof.
  assert (N : ~ opacity_in_range (constructor 0 0 2 MIN_SAFE_INTEGER)).
  { unfold opacity_in_range. cbn [constructor opacity]. lra. }
  repeat split; try reflexivity; try exact N.
  intro H. inversion H as [| x l Hx Hl]. exact (N Hx).
Qed.

(** C2, amended.  Whatever arguments the object is constructed with, as
    long as the opacity passed in lies in [0, 1] (the default is 1), the
    opacity field lies in [0, 1] after the constructor and after every call
    of every sequence of [reset], [startFadeIn], [startFadeOut],
    [checkStartFadeIn], [checkStartFadeOut] and [updateFading], with any
    frame numbers, times and flags. *)
Theorem opacity_always_in_unit_interval :
  forall (v s o : Q) (l : Z) (cs : list Call),
    0 <= o /\ o <= 1 ->
    Forall opacity_in_range
           (constructor v s o l :: history cs (constructor v s o l)).
Proof.
  intros v s o l cs H. constructor.
  - exact H.
  - apply history_invariant; [ exact call_opacity | exact H ].
Qed.

Lemma opacity_always_in_unit_interval_witness :
  Forall opacity_in_range
         (newRenderState
            :: history [CallCheckStartFadeIn 2 1 false;
                        CallUpdateFading 401 false;
                        CallStartFadeOut 3 500;
                        CallUpdateFading 600 false;
                        CallReset]
                       newRenderState).
Proof.
  apply (opacity_always_in_unit_interval 0 0 1 MIN_SAFE_INTEGER).
  split; by_computation.
Defined.

(** C4.  On a stale object (last updated before the previous frame)
    [startFadeIn] and [startFadeOut] first reset it, so that whatever fade
    was in flight is dropped, and then start a fresh transition: state
    [FadingIn] with opacity exactly 0, respectively [FadingOut] with opacity
    exactly 1, both with [startTime = time] and [value = 0]. *)
Theorem stale_start_resets_then_starts_afresh :
  forall (frameNumber : Z) (time : Q) (this : RenderState),
    stale frameNumber this ->
    m_state (reset this) = Undefined
    /\ startFadeIn frameNumber time this
       = startFadeIn frameNumber time (reset this)
    /\ startFadeIn frameNumber time this
       = mkRenderState FadingIn true 0 time 0 MIN_SAFE_INTEGER
    /\ startFadeOut frameNumber time this
       = startFadeOut frameNumber time (reset this)
    /\ startFadeOut frameNumber time this
       = mkRenderState FadingOut false 0 time 1 MIN_SAFE_INTEGER.
Proof.
  unfold stale. intros frameNumber time this H.
  apply Z.ltb_lt in H.
  assert (Ein : startFadeIn frameNumber time this
                = mkRenderState FadingIn true 0 time 0 MIN_SAFE_INTEGER)
    by (rewrite startFadeIn_eq, H; reflexivity).
  assert (Eout : startFadeOut frameNumber time this
                 = mkRenderState FadingOut false 0 time 1 MIN_SAFE_INTEGER)
    by (rewrite startFadeOut_eq, H; reflexivity).
  split; [ reflexivity | ].
  split; [ | split; [ exact Ein | split; [ | exact Eout ] ] ].
  - rewrite Ein, startFadeIn_eq. cbv zeta. case_if; reflexivity.
  - rewrite Eout, startFadeOut_eq. cbv zeta. case_if; reflexivity.
Qed.

Lemma stale_start_resets_then_starts_afresh_witness :
  startFadeIn 7 900 (mkRenderState FadingOut true (1 # 4) 100 (1 # 2) 3)
  = mkRenderState FadingIn true 0 900 0 MIN_SAFE_INTEGER
  /\ startFadeOut 7 900 (mkRenderState FadingIn true (1 # 4) 100 (1 # 2) 3)
     = mkRenderState FadingOut false 0 900 1 MIN_SAFE_INTEGER.
Proof.
  split.
  - apply (stale_start_resets_then_starts_afresh
             7 900 (mkRenderState FadingOut true (1 # 4) 100 (1 # 2) 3)).
    unfold stale; cbn [lastFrameNumber]. lia.
  - apply (stale_start_resets_then_starts_afresh
             7 900 (mkRenderState FadingIn true (1 # 4) 100 (1 # 2) 3)).
    unfold stale; cbn [lastFrameNumber]. lia.
Defined.

(** C5.  On an object that is not stale, [startFadeIn] changes no field when
    the state is [FadingIn] or [FadedIn], and [startFadeOut] changes no field
    when the state is [FadingOut] or [FadedOut]. *)
Theorem matching_start_is_noop :
  forall (frameNumber : Z) (time : Q) (this : RenderState),
    (lastFrameNumber this >= frameNumber - 1)%Z ->
    (m_state this = FadingIn \/ m_state this = FadedIn ->
     startFadeIn frameNumber time this = this)
    /\ (m_state this = FadingOut \/ m_state this = FadedOut ->
        startFadeOut frameNumber time this = this).
Proof.
  intros frameNumber time this H.
  assert (E : (lastFrameNumber this <? frameNumber - 1)%Z = false)
    by (apply Z.ltb_ge; lia).
  rewrite startFadeIn_eq, startFadeOut_eq, E. cbv zeta.
  split; intros [S | S]; rewrite S; reflexivity.
Qed.

Lemma matching_start_is_noop_witness :
  startFadeIn 5 300 (mkRenderState FadingIn true (1 # 4) 100 (1 # 2) 4)
  = mkRenderState FadingIn true (1 # 4) 100 (1 # 2) 4
  /\ startFadeOut 5 300 (mkRenderState FadedOut false 1 100 0 5)
     = mkRenderState FadedOut false 1 100 0 5.
Proof.
  split.
  - apply (matching_start_is_noop
             5 300 (mkRenderState FadingIn true (1 # 4) 100 (1 # 2) 4));
      cbn [lastFrameNumber m_state]; [ lia | left; reflexivity ].
  - apply (matching_start_is_noop
             5 300 (mkRenderState FadedOut false 1 100 0 5));
      cbn [lastFrameNumber m_state]; [ lia | right; reflexivity ].
Defined.

(** ** [updateFading] *)

Lemma effectiveStartTime_zero (time : Q) (this : RenderState) :
  startTime this == 0 -> effectiveStartTime time this = time.
Proof.
  intro H. unfold effectiveStartTime.
  now rewrite (proj2 (Qeq_bool_iff _ _) H).
Qed.

Lemma effectiveStartTime_nonzero (time : Q) (this : RenderState) :
  ~ startTime this == 0 -> effectiveStartTime time this = startTime this.
Proof.
  intro H. unfold effectiveStartTime.
  now rewrite (proj2 (Qeq_bool_false _ _) H).
Qed.

(** C3, as the claim words it, fails when [startTime] is 0: a fade-in
    started at time 0 and updated at time 1000 has [time - startTime] equal
    to 1000, which is not below the fade time of 800, and yet the update
    leaves it fading in, at opacity 0. *)
Lemma updateFading_start_time_zero_counterexample :
  m_state fadeInStartedAtZero = FadingIn
  /\ DEFAULT_FADE_TIME <= 1000 - startTime fadeInStartedAtZero
  /\ m_state (after (updateFading 1000 false) fadeInStartedAtZero) = FadingIn
  /\ opacity (after (updateFading 1000 false) fadeInStartedAtZero) == 0.
Proof. repeat split; by_computation. Qed.

(** C3, amended.  [updateFading] changes nothing unless the state is
    [FadingIn] or [FadingOut].  When it is, the elapsed time is [time]
    minus the start time, a start time of 0 being first replaced by [time];
    if fading is disabled or the elapsed time is at least 800 the state
    becomes the terminal one, [FadedIn] with opacity exactly 1 or
    [FadedOut] with opacity exactly 0; otherwise the state stays, [value]
    becomes the elapsed time divided by 800 and the opacity the
    smoother-step interpolation of [value] between the start and the end
    opacity of the transition, clamped to [0, 1]. *)
Theorem updateFading_behaviour :
  forall (time : Q) (disableFading : bool) (this : RenderState),
    let start := effectiveStartTime time this in
    let this' := after (updateFading time disableFading) this in
    (m_state this <> FadingIn -> m_state this <> FadingOut -> this' = this)
    /\ (disableFading = true \/ DEFAULT_FADE_TIME <= time - start ->
        (m_state this = FadingIn ->
         m_state this' = FadedIn /\ opacity this' = 1)
        /\ (m_state this = FadingOut ->
            m_state this' = FadedOut /\ opacity this' = 0))
    /\ (disableFading = false -> time - start < DEFAULT_FADE_TIME ->
        m_state this = FadingIn \/ m_state this = FadingOut ->
        m_state this' = m_state this
        /\ value this' = (time - start) / DEFAULT_FADE_TIME
        /\ opacity this'
           = THREE.clamp
               (MathUtils.smootherStep (startOpacity (m_state this))
                                       (endOpacity (m_state this))
                                       (value this')) 0 1
        /\ 0 <= opacity this' /\ opacity this' <= 1).
Proof.
  intros time disableFading this start this'. subst start this'.
  unfold after. rewrite updateFading_eq. cbv zeta.
  split; [ | split ].
  - intros Hin Hout. destruct (m_state this); try reflexivity; congruence.
  - intro H.
    assert (E : disableFading
                || Qle_bool DEFAULT_FADE_TIME
                            (time - effectiveStartTime time this) = true).
    { destruct H as [-> | H]; [ reflexivity | ].
      apply orb_true_iff. right. now apply Qle_bool_iff. }
    split; intro S; rewrite S, E; split; reflexivity.
  - intros Hd Hlt S.
    assert (E : disableFading
                || Qle_bool DEFAULT_FADE_TIME
                            (time - effectiveStartTime time this) = false).
    { rewrite Hd. cbn [orb]. now apply Qle_bool_false. }
    destruct S as [S | S]; rewrite S, E; cbn [snd m_state value opacity];
      (split; [ reflexivity | split; [ reflexivity | split;
         [ reflexivity | apply THREE_clamp_unit ] ] ]).
Qed.

Lemma updateFading_behaviour_witness :
  (after (updateFading 5 false) (mkRenderState FadedIn true 1 1 1 3)
   = mkRenderState FadedIn true 1 1 1 3)
  /\ (m_state (after (updateFading 801 false)
                     (mkRenderState FadingIn true 0 1 0 3)) = FadedIn
      /\ opacity (after (updateFading 801 false)
                        (mkRenderState FadingIn true 0 1 0 3)) = 1)
  /\ value (after (updateFading 401 false)
                  (mkRenderState FadingOut true 0 1 1 3))
     = (401 - 1) / DEFAULT_FADE_TIME.
Proof.
  split; [ | split ].
  - apply (updateFading_behaviour 5 false (mkRenderState FadedIn true 1 1 1 3));
      cbn [m_state]; discriminate.
  - apply (updateFading_behaviour
             801 false (mkRenderState FadingIn true 0 1 0 3)).
    + right. by_computation.
    + reflexivity.
  - apply (updateFading_behaviour
             401 false (mkRenderState FadingOut true 0 1 1 3)).
    + reflexivity.
    + by_computation.
    + right. reflexivity.
Defined.

(** C10.  The start time 0 is a sentinel.  When the state is [FadingIn] or
    [FadingOut] and [startTime] is 0, [updateFading] first overwrites
    [startTime] with the time it is given; with fading enabled the
    transition is therefore at its very beginning after that call (elapsed
    time 0, [value] 0, the start opacity of the transition), whatever the
    time, and later updates measure the elapsed time from that first call:
    the transition ends 800 after it.  A caller whose clock reads 0 when the
    transition starts does not get the transition it asked for. *)
Theorem start_time_zero_is_a_sentinel :
  forall (time : Q) (disableFading : bool) (this : RenderState),
    m_state this = FadingIn \/ m_state this = FadingOut ->
    startTime this == 0 ->
    let this' := after (updateFading time disableFading) this in
    startTime this' = time
    /\ (disableFading = false ->
        m_state this' = m_state this
        /\ value this' == 0
        /\ opacity this' == startOpacity (m_state this)
        /\ forall time' : Q,
            ~ time == 0 ->
            let this'' := after (updateFading time' false) this' in
            (time' - time < DEFAULT_FADE_TIME ->
             m_state this'' = m_state this
             /\ value this'' = (time' - time) / DEFAULT_FADE_TIME)
            /\ (DEFAULT_FADE_TIME <= time' - time ->
                m_state this'' = terminalState (m_state this))).
Proof.
  intros time disableFading this S Hzero this'. subst this'.
  unfold after. rewrite updateFading_eq. cbv zeta.
  rewrite (effectiveStartTime_zero time this Hzero).
  assert (E : Qle_bool DEFAULT_FADE_TIME (time - time) = false)
    by (apply Qle_bool_false; unfold DEFAULT_FADE_TIME; lra).
  assert (V : (time - time) / DEFAULT_FADE_TIME == 0)
    by (unfold DEFAULT_FADE_TIME; field).
  split.
  - destruct S as [S | S]; rewrite S; case_if; reflexivity.
  - intros ->. cbn [orb]. rewrite E.
    assert (Hlater :
      forall (st : FadingState) (vis : bool) (v o : Q) (l : Z) (time' : Q),
        st = FadingIn \/ st = FadingOut ->
        ~ time == 0 ->
        let this'' :=
          snd (updateFading time' false (mkRenderState st vis v time o l)) in
        (time' - time < DEFAULT_FADE_TIME ->
         m_state this'' = st
         /\ value this'' = (time' - time) / DEFAULT_FADE_TIME)
        /\ (DEFAULT_FADE_TIME <= time' - time ->
            m_state this'' = terminalState st)).
    { intros st vis v o l time' Hst Hnz this''. subst this''.
      rewrite updateFading_eq. cbv zeta.
      rewrite effectiveStartTime_nonzero by exact Hnz.
      cbn [startTime m_state orb].
      split; intro H.
      - apply Qle_bool_false in H.
        destruct Hst as [-> | ->]; rewrite H; split; reflexivity.
      - apply Qle_bool_iff in H.
        destruct Hst as [-> | ->]; rewrite H; reflexivity. }
    destruct S as [S | S]; rewrite S; cbn [snd m_state value opacity];
      (split; [ reflexivity | split; [ exact V | split ] ]).
    + unfold easedOpacity. rewrite V. by_computation.
    + intros time' Hnz. apply Hlater; [ left; reflexivity | exact Hnz ].
    + unfold easedOpacity. rewrite V. by_computation.
    + intros time' Hnz. apply Hlater; [ right; reflexivity | exact Hnz ].
Qed.

Lemma start_time_zero_is_a_sentinel_witness :
  startTime (after (updateFading 1000 false) fadeInStartedAtZero) = 1000
  /\ m_state (after (updateFading 1000 false) fadeInStartedAtZero) = FadingIn.
Proof.
  pose proof (start_time_zero_is_a_sentinel
                1000 false fadeInStartedAtZero
                (or_introl eq_refl) (Qeq_refl 0)) as H.
  split.
  - exact (proj1 H).
  - exact (proj1 (proj2 H eq_refl)).
Defined.

(** ** Visibility *)

Lemma constructor_visible_coherent (v s o : Q) (l : Z) :
  visible_coherent (constructor v s o l).
Proof. reflexivity. Qed.

Lemma reset_visible_coherent (this : RenderState) :
  visible_coherent (reset this).
Proof. reflexivity. Qed.

Lemma startFadeIn_visible_coherent (f : Z) (t : Q) (this : RenderState) :
  visible_coherent this -> visible_coherent (startFadeIn f t this).
Proof.
  intro H. rewrite startFadeIn_eq. cbv zeta.
  case_if.
  - reflexivity.
  - destruct this as [st vis v s o l]. destruct st; try exact H; reflexivity.
Qed.

Lemma startFadeOut_visible_coherent (f : Z) (t : Q) (this : RenderState) :
  visible_coherent this -> visible_coherent (startFadeOut f t this).
Proof.
  intro H. rewrite startFadeOut_eq. cbv zeta.
  case_if.
  - exact I.
  - destruct this as [st vis v s o l]. destruct st; try exact H; exact I.
Qed.

Lemma updateFading_visible_coherent (t : Q) (d : bool) (this : RenderState) :
  visible_coherent this -> visible_coherent (after (updateFading t d) this).
Proof.
  intro H. unfold after. rewrite updateFading_eq. cbv zeta.
  destruct this as [st vis v s o l].
  destruct st; cbn [m_state]; try exact H; case_if;
    first [ reflexivity | exact H ].
Qed.

Lemma call_visible_coherent (c : Call) (this : RenderState) :
  visible_coherent this -> visible_coherent (call c this).
Proof.
  apply call_invariant.
  - apply reset_visible_coherent.
  - apply startFadeIn_visible_coherent.
  - apply startFadeOut_visible_coherent.
  - apply updateFading_visible_coherent.
  - intros n s H. exact H.
Qed.

Lemma run_visible_coherent (v s o : Q) (l : Z) (cs : list Call) :
  visible_coherent (run cs (constructor v s o l)).
Proof.
  apply run_invariant;
    [ exact call_visible_coherent | apply constructor_visible_coherent ].
Qed.

(** C6.  The code breaks the contract written above [isVisible], "true if
    element is either faded in, is fading in or is fading out", and the
    claim with it.  After [new RenderState(); startFadeOut(2, 1);
    updateFading(401, false)] the object is fading out, with an opacity of
    1/2 at half-time, and yet [updateFading] has returned [false] and
    [isVisible] is false.  The same happens to a label that had faded in
    and was last checked more than one frame before the fade-out starts:
    [startFadeOut] resets it first. *)
Theorem fading_out_yet_not_visible :
  fadeOutFromUndefined = startFadeOut 2 1 newRenderState
  /\ returned (updateFading 401 false) fadeOutFromUndefined = false
  /\ (let this := after (updateFading 401 false) fadeOutFromUndefined in
      m_state this = FadingOut
      /\ isFadingOut this = true
      /\ opacity this == 1 # 2
      /\ isVisible this = false)
  /\ (let this := run [ CallCheckStartFadeIn 5 1 false;
                        CallUpdateFading 900 false ] newRenderState in
      isFadedIn this = true
      /\ isVisible this = true
      /\ isFadingOut (startFadeOut 9 1000 this) = true
      /\ isVisible (startFadeOut 9 1000 this) = false
      /\ returned (updateFading 1400 false) (startFadeOut 9 1000 this)
         = false
      /\ opacity (after (updateFading 1400 false)
                        (startFadeOut 9 1000 this)) == 1 # 2).
Proof. cbv zeta. repeat split; by_computation. Qed.

(** What [updateFading] returns, in general.  For an object reached from
    the constructor by any sequence of calls it is the visibility flag:
    [true] when the state after the update is [FadingIn] or [FadedIn],
    [false] when it is [FadedOut] or [Undefined], and, when it is
    [FadingOut], the visibility the object had before the update.
    [startFadeOut] leaves the flag as it is, so a fade-out entered from
    [FadingIn] or [FadedIn] is visible, and a fade-out entered from
    [Undefined], or from any state of a stale object (which is reset
    first), is not. *)
Lemma updateFading_returns_visibility :
  forall (v s o : Q) (l : Z) (cs : list Call) (time : Q) (disableFading : bool),
    let this := run cs (constructor v s o l) in
    let this' := after (updateFading time disableFading) this in
    returned (updateFading time disableFading) this
    = match m_state this' with
      | FadingIn | FadedIn => true
      | Undefined | FadedOut => false
      | FadingOut => m_visible this
      end
    /\ forall (frameNumber : Z) (t : Q),
        (m_state (startFadeOut frameNumber t this),
         m_visible (startFadeOut frameNumber t this))
        = if (lastFrameNumber this <? frameNumber - 1)%Z
          then (FadingOut, false)
          else match m_state this with
               | Undefined => (FadingOut, false)
               | FadingIn | FadedIn => (FadingOut, true)
               | FadingOut => (FadingOut, m_visible this)
               | FadedOut => (FadedOut, false)
               end.
Proof.
  intros v s o l cs time disableFading this this'.
  pose proof (run_visible_coherent v s o l cs) as H.
  fold this in H. subst this'. clearbody this.
  unfold after, returned. split.
  - rewrite updateFading_eq. cbv zeta.
    destruct this as [st vis v0 s0 o0 l0].
    destruct st; cbn [m_state m_visible] in *; try exact H;
      case_if; first [ reflexivity | exact H ].
  - intros frameNumber t. rewrite startFadeOut_eq. cbv zeta.
    case_if; [ reflexivity | ].
    destruct this as [st vis v0 s0 o0 l0].
    destruct st; cbn [m_state m_visible] in *; rewrite ?H; reflexivity.
Qed.

(** ** Reversing a transition *)

#[global] Instance easedOpacity_Proper (s : FadingState) :
  Proper (Qeq ==> Qeq) (easedOpacity s).
Proof. intros x y H. unfold easedOpacity. now rewrite H. Qed.

(** Fading in at progress [1 - v] and fading out at progress [v] show the
    same opacity. *)
Lemma easedOpacity_mirror (v : Q) :
  easedOpacity FadingIn (1 - v) == easedOpacity FadingOut v.
Proof.
  unfold easedOpacity.
  change (startOpacity FadingIn) with 0. change (endOpacity FadingIn) with 1.
  change (startOpacity FadingOut) with 1. change (endOpacity FadingOut) with 0.
  now rewrite smootherStep_out_in.
Qed.

(** What the two reversals store.  [startFadeIn] computes the new [value]
    first and back-dates the start time with it; [startFadeOut] back-dates
    the start time with the old [value] and computes the new one
    afterwards. *)
Lemma startFadeIn_reversal (frameNumber : Z) (time : Q) (this : RenderState) :
  (lastFrameNumber this >= frameNumber - 1)%Z ->
  m_state this = FadingOut ->
  let this' := startFadeIn frameNumber time this in
  m_state this' = FadingIn
  /\ value this' = 1 - value this
  /\ startTime this' = time - value this' * DEFAULT_FADE_TIME
  /\ opacity this' = opacity this.
Proof.
  intros H S this'. subst this'.
  assert (E : (lastFrameNumber this <? frameNumber - 1)%Z = false)
    by (apply Z.ltb_ge; lia).
  rewrite startFadeIn_eq, E. cbv zeta. rewrite S. repeat split.
Qed.

Lemma startFadeOut_reversal (frameNumber : Z) (time : Q) (this : RenderState) :
  (lastFrameNumber this >= frameNumber - 1)%Z ->
  m_state this = FadingIn ->
  let this' := startFadeOut frameNumber time this in
  m_state this' = FadingOut
  /\ value this' = 1 - value this
  /\ startTime this' = time - value this * DEFAULT_FADE_TIME
  /\ opacity this' = opacity this.
Proof.
  intros H S this'. subst this'.
  assert (E : (lastFrameNumber this <? frameNumber - 1)%Z = false)
    by (apply Z.ltb_ge; lia).
  rewrite startFadeOut_eq, E. cbv zeta. rewrite S. repeat split.
Qed.

(** The next update after a reversal, at the time of the reversal, when the
    back-dated start time is not the sentinel 0. *)
Lemma update_after_backdating
      (st : FadingState) (vis : bool) (v o : Q) (l : Z) (time p : Q) :
  st = FadingIn \/ st = FadingOut ->
  0 < p -> p <= 1 ->
  ~ time - p * DEFAULT_FADE_TIME == 0 ->
  opacity (after (updateFading time false)
                 (mkRenderState st vis v (time - p * DEFAULT_FADE_TIME) o l))
  == easedOpacity st p.
Proof.
  intros Hst Hp0 Hp1 Hnz. unfold after. rewrite updateFading_eq. cbv zeta.
  rewrite effectiveStartTime_nonzero by exact Hnz.
  cbn [startTime m_state orb].
  assert (V : (time - (time - p * DEFAULT_FADE_TIME)) / DEFAULT_FADE_TIME == p)
    by (unfold DEFAULT_FADE_TIME; field).
  destruct (Qle_bool DEFAULT_FADE_TIME
                     (time - (time - p * DEFAULT_FADE_TIME))) eqn:E.
  - apply Qle_bool_iff in E. unfold DEFAULT_FADE_TIME in E.
    assert (P1 : p == 1) by lra.
    destruct Hst as [-> | ->]; cbn [snd opacity]; rewrite P1; by_computation.
  - destruct Hst as [-> | ->]; cbn [snd opacity]; now rewrite V.
Qed.

(** Reversing a fade-out into a fade-in keeps the opacity: the sibling of
    the path that C1 fails on. *)
Lemma startFadeIn_reversal_continuous
      (frameNumber : Z) (time : Q) (this : RenderState) :
  (lastFrameNumber this >= frameNumber - 1)%Z ->
  m_state this = FadingOut ->
  0 <= value this -> value this < 1 ->
  opacity this == easedOpacity FadingOut (value this) ->
  ~ time - (1 - value this) * DEFAULT_FADE_TIME == 0 ->
  opacity (after (updateFading time false)
                 (startFadeIn frameNumber time this))
  == opacity this.
Proof.
  intros H S Hv0 Hv1 Ho Hnz.
  assert (E : (lastFrameNumber this <? frameNumber - 1)%Z = false)
    by (apply Z.ltb_ge; lia).
  rewrite startFadeIn_eq, E. cbv zeta. rewrite S.
  rewrite update_after_backdating;
    [ | left; reflexivity | lra | lra | exact Hnz ].
  rewrite easedOpacity_mirror. symmetry. exact Ho.
Qed.

(** Reversing a fade-in into a fade-out: the next update shows the opacity
    of a fade-out at the progress the fade-in had, that is the mirror image
    of the opacity before. *)
Lemma startFadeOut_reversal_mirrors
      (frameNumber : Z) (time : Q) (this : RenderState) :
  (lastFrameNumber this >= frameNumber - 1)%Z ->
  m_state this = FadingIn ->
  0 < value this -> value this <= 1 ->
  ~ time - value this * DEFAULT_FADE_TIME == 0 ->
  opacity (after (updateFading time false)
                 (startFadeOut frameNumber time this))
  == easedOpacity FadingOut (value this).
Proof.
  intros H S Hv0 Hv1 Hnz.
  assert (E : (lastFrameNumber this <? frameNumber - 1)%Z = false)
    by (apply Z.ltb_ge; lia).
  rewrite startFadeOut_eq, E. cbv zeta. rewrite S.
  apply update_after_backdating;
    [ right; reflexivity | exact Hv0 | exact Hv1 | exact Hnz ].
Qed.

(** C1 fails on [startFadeOut].  A fade-in that started at time 800 is at a
    quarter of its way at time 1000, with opacity 53/512.  Asked to fade out
    at that time, on the next frame, the object gets [value] 3/4 as the
    claim says, but its start time stays 800, where the claim has
    1000 - 3/4 * 800 = 400, and the next [updateFading], still at time
    1000, shows the opacity 459/512: the label jumps from about a tenth to
    about nine tenths of its opacity. *)
Theorem startFadeOut_reversal_jumps :
  m_state quarterFadedIn = FadingIn
  /\ lastFrameNumber quarterFadedIn = 9%Z
  /\ value quarterFadedIn == 1 # 4
  /\ opacity quarterFadedIn == 53 # 512
  /\ m_state (startFadeOut 10 1000 quarterFadedIn) = FadingOut
  /\ value (startFadeOut 10 1000 quarterFadedIn) == 3 # 4
  /\ startTime (startFadeOut 10 1000 quarterFadedIn) == 800
  /\ ~ startTime (startFadeOut 10 1000 quarterFadedIn)
       == 1000 - value (startFadeOut 10 1000 quarterFadedIn)
                 * DEFAULT_FADE_TIME
  /\ opacity (after (updateFading 1000 false)
                    (startFadeOut 10 1000 quarterFadedIn)) == 459 # 512
  /\ ~ opacity (after (updateFading 1000 false)
                      (startFadeOut 10 1000 quarterFadedIn))
       == opacity quarterFadedIn.
Proof. repeat split; by_computation. Qed.

(** The same reversal in the other direction keeps the opacity. *)
Lemma startFadeIn_reversal_keeps_opacity :
  m_state quarterFadedOut = FadingOut
  /\ value quarterFadedOut == 1 # 4
  /\ opacity quarterFadedOut == 459 # 512
  /\ value (startFadeIn 10 1000 quarterFadedOut) == 3 # 4
  /\ startTime (startFadeIn 10 1000 quarterFadedOut) == 400
  /\ opacity (after (updateFading 1000 false)
                    (startFadeIn 10 1000 quarterFadedOut)) == 459 # 512.
Proof. repeat split; by_computation. Qed.

(** * The placement pass against the test of the renderer *)

Import TextElementsRendererTest.


Lemma FADE_2_CYCLES_times :
  map Qred FADE_2_CYCLES = [1; 803 # 3; 401; 801; 3203 # 3; 1201; 1601].
Proof. reflexivity. Qed.

Section AnyRenderer.

Context {Label : Type}.
Variable placeText : Z -> Q -> bool -> Label -> Label * option Q.



(** What is drawn for a label whose tile is not visited depends on the
    label only, and the label is left as it is. *)
Variable draw : Label -> option Q.
Hypothesis frozen :
  forall (frameNumber : Z) (time : Q) (label : Label),
    placeText frameNumber time false label = (label, draw label).



End AnyRenderer.


(** The placement pass as the spec words it is such a renderer, whichever
    way it orders the update and the transition check. *)
Lemma spec_pass_fails_non_visited_test :
  runTest (TextElementsRenderer.placeText true)
          test_non_visited_point_text_fades_out newRenderState = false
  /\ runTest (TextElementsRenderer.placeText false)
             test_non_visited_point_text_fades_out newRenderState = false.
Proof. split; vm_compute; reflexivity. Qed.




(** C9, as the claim words it, fails in the first frame.  At time 1 the
    fade-in has just started: the opacity is 0 and nothing is drawn, so the
    label is not observed fading in, which for the test means drawn with an
    opacity above the last one.  The sequence of the claim is rejected by
    the checks of the test. *)
Lemma fade_in_first_frame_counterexample :
  map (fun r => Qred (opacity (fst r))) (firstn 1 fadeInScenario) = [0]
  /\ map snd (firstn 1 fadeInScenario) = [None]
  /\ checkTextElementState (Some 0) FadeState.FadingIn 0 = None
  /\ checkTextElementState None FadeState.FadingIn 0 = None
  /\ checkFrames (TextElementsRenderer.placeText true) 0 fadeInTimes
                 [true; true; true; true]
                 [ FadeState.FadingIn; FadeState.FadingIn;
                   FadeState.FadingIn; FadeState.FadedIn ]
                 newRenderState 0
     = false.
Proof. repeat split; vm_compute; reflexivity. Qed.

(** C9, amended.  One tile, one point label placed without collisions,
    placement passes at the times 1, 267, 400 and 801: the state of the
    label is [FadingIn] after each of the first three frames and [FadedIn]
    after the last, its opacity is 0, then strictly increasing, then 1; the
    label is not drawn in the first frame, so that the states observed by
    the test are [FADE_IN]: FadedOut, FadingIn, FadingIn, FadedIn.  The
    same holds at the frame times of the test itself, 1, 1 + 800/3, 401 and
    801, and whether the pass updates the opacity before or after it
    checks the transition. *)
Theorem fade_in_scenario :
  map (fun r => m_state (fst r)) fadeInScenario
  = [FadingIn; FadingIn; FadingIn; FadedIn]
  /\ map (fun r => Qred (opacity (fst r))) fadeInScenario
     = [ 0;
         1068254824679 # 5120000000000;
         81536001599997 # 163840000000000;
         1 ]
  /\ 0 < 1068254824679 # 5120000000000
  /\ 1068254824679 # 5120000000000 < 81536001599997 # 163840000000000
  /\ 81536001599997 # 163840000000000 < 1
  /\ map (fun r => option_map Qred (snd r)) fadeInScenario
     = [ None;
         Some (1068254824679 # 5120000000000);
         Some (81536001599997 # 163840000000000);
         Some 1 ]
  /\ checkFrames (TextElementsRenderer.placeText true) 0 fadeInTimes
                 [true; true; true; true] FADE_IN newRenderState 0 = true
  /\ map observed
         (frameHistory (TextElementsRenderer.placeText false) 0 fadeInTimes
                       [true; true; true; true] newRenderState)
     = map observed fadeInScenario
  /\ runTest (TextElementsRenderer.placeText true)
             test_point_text_fades_in newRenderState = true
  /\ runTest (TextElementsRenderer.placeText false)
             test_point_text_fades_in newRenderState = true.
Proof. repeat split; vm_compute; reflexivity. Qed.

(** A label that is never placed, as a duplicate is, and is hidden to begin
    with stays hidden: it is never drawn and never faded in, however many
    frames pass. *)
Lemma startFadeOut_hidden (f : Z) (t : Q) (this : RenderState) :
  hidden this -> hidden (startFadeOut f t this).
Proof.
  unfold hidden. intros (Hv & Hin & Hed). rewrite startFadeOut_eq. cbv zeta.
  case_if; [ repeat split; discriminate | ].
  destruct this as [st vis v s o l]; cbn [m_visible m_state] in *; subst vis.
  destruct st; cbn [m_visible m_state]; repeat split;
    first [ discriminate | congruence ].
Qed.

Lemma updateFading_hidden (t : Q) (d : bool) (this : RenderState) :
  hidden this -> hidden (after (updateFading t d) this).
Proof.
  unfold hidden, after. intros (Hv & Hin & Hed).
  rewrite updateFading_eq. cbv zeta.
  destruct this as [st vis v s o l]; cbn [m_visible m_state] in *; subst vis.
  destruct st; cbn [m_state]; try congruence; try case_if;
    cbn [snd m_visible m_state]; repeat split; discriminate.
Qed.

Lemma fadeUpdate_hidden
      (updateFirst : bool) (n : Z) (t : Q) (this : RenderState) :
  hidden this ->
  hidden (TextElementsRenderer.fadeUpdate updateFirst false n t this).
Proof.
  intro H.
  assert (S : forall x n', hidden x -> hidden (set_lastFrameNumber n' x))
    by (intros x n' X; exact X).
  unfold TextElementsRenderer.fadeUpdate.
  destruct updateFirst; rewrite checkStartFadeOut_after; cbn [orb].
  - apply S, startFadeOut_hidden, updateFading_hidden, H.
  - apply updateFading_hidden, S, startFadeOut_hidden, H.
Qed.

Lemma never_placed_never_drawn (updateFirst : bool) (frames : list (Z * Q)) :
  forall renderState : RenderState,
    hidden renderState ->
    let renderState' :=
      fold_left (fun renderState frame =>
                   TextElementsRenderer.fadeUpdate
                     updateFirst false (fst frame) (snd frame) renderState)
                frames renderState in
    TextElementsRenderer.renderedOpacity renderState' = None
    /\ m_state renderState' <> FadedIn.
Proof.
  induction frames as [| [n t] frames IH]; intros rs H; cbn [fold_left].
  - cbv zeta. unfold TextElementsRenderer.renderedOpacity, isVisible.
    destruct H as (-> & _ & H). split; [ reflexivity | exact H ].
  - cbn [fst snd]. apply IH, fadeUpdate_hidden, H.
Qed.


(** * More of [RenderState] *)

Lemma reset_is_new (this : RenderState) : reset this = newRenderState.
Proof. reflexivity. Qed.

Lemma startFadeIn_state (f : Z) (t : Q) (this : RenderState) :
  m_state (startFadeIn f t this) = FadingIn
  \/ m_state (startFadeIn f t this) = FadedIn.
Proof.
  rewrite startFadeIn_eq. cbv zeta. case_if; [ left; reflexivity | ].
  destruct this as [st vis v s o l]; destruct st; cbn [m_state]; auto.
Qed.

Lemma startFadeOut_state (f : Z) (t : Q) (this : RenderState) :
  m_state (startFadeOut f t this) = FadingOut
  \/ m_state (startFadeOut f t this) = FadedOut.
Proof.
  rewrite startFadeOut_eq. cbv zeta. case_if; [ left; reflexivity | ].
  destruct this as [st vis v s o l]; destruct st; cbn [m_state]; auto.
Qed.

(** X1.  Starting a transition twice is starting it once: a second
    [startFadeIn], or [startFadeOut], with the same frame number and time
    changes nothing, whatever the object was, stale or not. *)
Theorem startFade_idempotent :
  forall (frameNumber : Z) (time : Q) (this : RenderState),
    startFadeIn frameNumber time (startFadeIn frameNumber time this)
    = startFadeIn frameNumber time this
    /\ startFadeOut frameNumber time (startFadeOut frameNumber time this)
       = startFadeOut frameNumber time this.
Proof.
  intros f t this. split.
  - rewrite (startFadeIn_eq f t this). cbv zeta.
    destruct (lastFrameNumber this <? f - 1)%Z eqn:E.
    + rewrite reset_is_new. cbn [newRenderState constructor m_state
                                 lastFrameNumber].
      rewrite startFadeIn_eq. cbv zeta. cbn [lastFrameNumber].
      case_if; reflexivity.
    + destruct this as [st vis v s o l]. cbn [lastFrameNumber] in E.
      destruct st; cbn [m_state value opacity lastFrameNumber];
        rewrite startFadeIn_eq; cbv zeta; cbn [lastFrameNumber];
        rewrite E; reflexivity.
  - rewrite (startFadeOut_eq f t this). cbv zeta.
    destruct (lastFrameNumber this <? f - 1)%Z eqn:E.
    + rewrite reset_is_new. cbn [newRenderState constructor m_state
                                 m_visible lastFrameNumber].
      rewrite startFadeOut_eq. cbv zeta. cbn [lastFrameNumber].
      case_if; reflexivity.
    + destruct this as [st vis v s o l]. cbn [lastFrameNumber] in E.
      destruct st; cbn [m_state m_visible value opacity lastFrameNumber];
        rewrite startFadeOut_eq; cbv zeta; cbn [lastFrameNumber];
        rewrite E; reflexivity.
Qed.

Lemma effectiveStartTime_idempotent
      (t : Q) (st : FadingState) (vis : bool) (v s o : Q) (l : Z)
      (v' o' : Q) :
  effectiveStartTime
    t (mkRenderState st vis v'
                     (effectiveStartTime t (mkRenderState st vis v s o l))
                     o' l)
  = effectiveStartTime t (mkRenderState st vis v s o l).
Proof.
  unfold effectiveStartTime. cbn [startTime].
  destruct (Qeq_bool s 0) eqn:E.
  - destruct (Qeq_bool t 0); reflexivity.
  - rewrite E. reflexivity.
Qed.

(** X2.  Updating twice at the same time is updating once: the second
    [updateFading] returns the same value and leaves the object as the
    first one left it, also when the first one replaced a start time of
    0. *)
Theorem updateFading_idempotent :
  forall (time : Q) (disableFading : bool) (this : RenderState),
    updateFading time disableFading
                 (after (updateFading time disableFading) this)
    = updateFading time disableFading this.
Proof.
  intros t d this. unfold after.
  rewrite (updateFading_eq t d this). cbv zeta.
  destruct this as [st vis v s o l].
  destruct st; cbn [m_state m_visible lastFrameNumber];
    try (cbn [snd]; rewrite updateFading_eq; reflexivity);
    destruct (d || Qle_bool DEFAULT_FADE_TIME
                            (t - effectiveStartTime
                                   t (mkRenderState _ vis v s o l))) eqn:E;
    cbn [snd]; rewrite updateFading_eq; cbv zeta;
    cbn [m_state m_visible lastFrameNumber]; try reflexivity;
    rewrite effectiveStartTime_idempotent, E; reflexivity.
Qed.

(** The faded states keep their end values. *)
Lemma startFadeIn_terminal_coherent (f : Z) (t : Q) (this : RenderState) :
  terminal_coherent this -> terminal_coherent (startFadeIn f t this).
Proof.
  intro H. rewrite startFadeIn_eq. cbv zeta. case_if; [ exact I | ].
  destruct this as [st vis v s o l]; destruct st; first [ exact H | exact I ].
Qed.

Lemma startFadeOut_terminal_coherent (f : Z) (t : Q) (this : RenderState) :
  terminal_coherent this -> terminal_coherent (startFadeOut f t this).
Proof.
  intro H. rewrite startFadeOut_eq. cbv zeta. case_if; [ exact I | ].
  destruct this as [st vis v s o l]; destruct st; first [ exact H | exact I ].
Qed.

Lemma updateFading_terminal_coherent (t : Q) (d : bool) (this : RenderState) :
  terminal_coherent this -> terminal_coherent (after (updateFading t d) this).
Proof.
  intro H. unfold after. rewrite updateFading_eq. cbv zeta.
  destruct this as [st vis v s o l].
  destruct st; cbn [m_state]; try exact H; case_if;
    first [ exact I | repeat split ].
Qed.

Lemma run_terminal_coherent (v s o : Q) (l : Z) (cs : list Call) :
  terminal_coherent (run cs (constructor v s o l)).
Proof.
  apply run_invariant; [ | exact I ].
  apply call_invariant.
  - intro this. exact I.
  - apply startFadeIn_terminal_coherent.
  - apply startFadeOut_terminal_coherent.
  - apply updateFading_terminal_coherent.
  - intros n this H. exact H.
Qed.

(** X3.  Whatever the calls made on an object since its construction, when
    it is [FadedIn] its opacity is exactly 1 and it is visible, and when it
    is [FadedOut] its opacity is exactly 0 and it is not visible; [value]
    is 1 in both. *)
Theorem faded_states_have_end_values :
  forall (v s o : Q) (l : Z) (cs : list Call),
    let this := run cs (constructor v s o l) in
    (m_state this = FadedIn ->
     opacity this = 1 /\ value this = 1 /\ isVisible this = true)
    /\ (m_state this = FadedOut ->
        opacity this = 0 /\ value this = 1 /\ isVisible this = false).
Proof.
  intros v s o l cs this.
  pose proof (run_terminal_coherent v s o l cs) as H. fold this in H.
  unfold terminal_coherent, isVisible in *.
  split; intro S; rewrite S in H; exact H.
Qed.

Lemma faded_states_have_end_values_witness :
  opacity (run [CallCheckStartFadeIn 2 1 false; CallUpdateFading 801 false;
                CallCheckStartFadeIn 3 900 true]
               (constructor (1 # 3) 5 (1 # 2) 0)) = 1
  /\ opacity (run [CallCheckStartFadeOut 2 1 true;
                   CallUpdateFading 900 false; CallStartFadeOut 3 950]
                  (constructor (1 # 3) 5 (1 # 2) 0)) = 0.
Proof.
  split.
  - exact (proj1 (proj1 (faded_states_have_end_values
                           (1 # 3) 5 (1 # 2) 0
                           [CallCheckStartFadeIn 2 1 false;
                            CallUpdateFading 801 false;
                            CallCheckStartFadeIn 3 900 true])
                        eq_refl)).
  - exact (proj1 (proj2 (faded_states_have_end_values
                           (1 # 3) 5 (1 # 2) 0
                           [CallCheckStartFadeOut 2 1 true;
                            CallUpdateFading 900 false;
                            CallStartFadeOut 3 950])
                        eq_refl)).
Defined.

(** ** Frames *)

Lemma checkStart_after
      (fadeIn : bool) (f : Z) (t : Q) (force : bool) (this : RenderState) :
  after (checkStart fadeIn f t force) this
  = set_lastFrameNumber f
      (if force || FadingState_eqb (m_state this) Undefined
          || (lastFrameNumber this <? f - 1)%Z
       then (if fadeIn then startFadeIn f t this else startFadeOut f t this)
       else this).
Proof. destruct fadeIn; reflexivity. Qed.

Lemma checkStart_post
      (fadeIn : bool) (f : Z) (t : Q) (force : bool) (this : RenderState) :
  lastFrameNumber (after (checkStart fadeIn f t force) this) = f
  /\ m_state (after (checkStart fadeIn f t force) this) <> Undefined.
Proof.
  rewrite checkStart_after. split; [ reflexivity | ].
  cbn [set_lastFrameNumber m_state].
  destruct (force || FadingState_eqb (m_state this) Undefined
            || (lastFrameNumber this <? f - 1)%Z) eqn:E.
  - destruct fadeIn.
    + destruct (startFadeIn_state f t this) as [-> | ->]; discriminate.
    + destruct (startFadeOut_state f t this) as [-> | ->]; discriminate.
  - apply orb_false_iff in E. destruct E as [E _].
    apply orb_false_iff in E. destruct E as [_ E].
    intro S. rewrite S in E. discriminate E.
Qed.

(** X4.  [checkStartFadeIn] and [checkStartFadeOut] always record the
    frame number, never leave the object [Undefined], and return whether
    the object is fading afterwards; when forced, the first leaves it
    fading in or faded in and the second fading out or faded out. *)
Theorem check_records_frame :
  forall (fadeIn : bool) (frameNumber : Z) (time : Q) (force : bool)
         (this : RenderState),
    let this' := after (checkStart fadeIn frameNumber time force) this in
    lastFrameNumber this' = frameNumber
    /\ m_state this' <> Undefined
    /\ returned (checkStart fadeIn frameNumber time force) this
       = isFading this'
    /\ (let forced :=
          m_state (after (checkStart fadeIn frameNumber time true) this) in
        if fadeIn then forced = FadingIn \/ forced = FadedIn
        else forced = FadingOut \/ forced = FadedOut).
Proof.
  intros b f t force this this'. subst this'.
  destruct (checkStart_post b f t force this) as [L U].
  split; [ exact L | split; [ exact U | split ] ].
  - destruct b; reflexivity.
  - cbv zeta. rewrite checkStart_after. cbn [orb set_lastFrameNumber m_state].
    destruct b; [ apply startFadeIn_state | apply startFadeOut_state ].
Qed.

(** X5.  A label that is checked in every frame is never restarted by the
    check: after a check of either kind in a frame, a check of either kind
    that is not forced, in the same or in the next frame, changes nothing
    but the frame number. *)
Theorem checked_every_frame_only_stamps :
  forall (fadeIn fadeIn' : bool) (frameNumber : Z) (time time' : Q)
         (force : bool) (this : RenderState),
    let this1 := after (checkStart fadeIn frameNumber time force) this in
    after (checkStart fadeIn' frameNumber time' false) this1 = this1
    /\ after (checkStart fadeIn' (frameNumber + 1) time' false) this1
       = set_lastFrameNumber (frameNumber + 1) this1.
Proof.
  intros b b' f t t' force this this1.
  destruct (checkStart_post b f t force this) as [L U]. fold this1 in L, U.
  clearbody this1.
  assert (N : FadingState_eqb (m_state this1) Undefined = false).
  { apply not_true_iff_false. rewrite FadingState_eqb_eq. exact U. }
  rewrite !checkStart_after, N, L. cbn [orb].
  replace (f <? f - 1)%Z with false by (symmetry; apply Z.ltb_ge; lia).
  replace (f <? f + 1 - 1)%Z with false by (symmetry; apply Z.ltb_ge; lia).
  split; [ | reflexivity ].
  destruct this1 as [st vis v s o l]. cbn [lastFrameNumber] in L. subst l.
  reflexivity.
Qed.

(** X6.  A skipped frame restarts the label: after a check of either kind
    in a frame, a check two frames later or more, even if not forced,
    resets the object and starts the transition afresh, a fade-in from
    opacity 0 or a fade-out from opacity 1, whatever the object was
    showing. *)
Theorem skipped_frame_restarts :
  forall (fadeIn : bool) (frameNumber frameNumber' : Z) (time time' : Q)
         (force : bool) (this : RenderState),
    (frameNumber' >= frameNumber + 2)%Z ->
    let this1 := after (checkStart fadeIn frameNumber time force) this in
    after (checkStartFadeIn frameNumber' time' false) this1
    = mkRenderState FadingIn true 0 time' 0 frameNumber'
    /\ after (checkStartFadeOut frameNumber' time' false) this1
       = mkRenderState FadingOut false 0 time' 1 frameNumber'.
Proof.
  intros b f f' t t' force this G this1.
  destruct (checkStart_post b f t force this) as [L _]. fold this1 in L.
  clearbody this1.
  assert (E : (lastFrameNumber this1 <? f' - 1)%Z = true)
    by (apply Z.ltb_lt; lia).
  rewrite checkStartFadeIn_after, checkStartFadeOut_after, E,
    !orb_true_r, startFadeIn_eq, startFadeOut_eq, E.
  split; reflexivity.
Qed.

Lemma skipped_frame_restarts_witness :
  after (checkStartFadeIn 7 2000 false)
        (after (checkStart true 5 1 false) newRenderState)
  = mkRenderState FadingIn true 0 2000 0 7.
Proof.
  apply (skipped_frame_restarts true 5 7 1 2000 false newRenderState). lia.
Defined.

Lemma updateFading_lastFrameNumber (t : Q) (d : bool) (this : RenderState) :
  lastFrameNumber (after (updateFading t d) this) = lastFrameNumber this.
Proof.
  unfold after. rewrite updateFading_eq. cbv zeta.
  destruct (m_state this); try case_if; reflexivity.
Qed.

(** X7.  [startFadeIn] and [startFadeOut] do not record the frame.  Once
    one of them has found the object stale, the object stays stale: a later
    [startFadeIn] or [startFadeOut], in whatever frame above the smallest
    one and whatever updates came in between, starts the transition from
    the beginning again. *)
Theorem start_does_not_record_frame :
  forall (fadeIn : bool) (frameNumber frameNumber' : Z) (time time' u : Q)
         (d : bool) (this : RenderState),
    stale frameNumber this ->
    (MIN_SAFE_INTEGER < frameNumber' - 1)%Z ->
    let this1 :=
      after (updateFading u d)
            (if fadeIn then startFadeIn frameNumber time this
             else startFadeOut frameNumber time this) in
    stale frameNumber' this1
    /\ startFadeIn frameNumber' time' this1
       = mkRenderState FadingIn true 0 time' 0 MIN_SAFE_INTEGER
    /\ startFadeOut frameNumber' time' this1
       = mkRenderState FadingOut false 0 time' 1 MIN_SAFE_INTEGER.
Proof.
  intros b f f' t t' u d this S M this1.
  assert (L : lastFrameNumber this1 = MIN_SAFE_INTEGER).
  { subst this1. rewrite updateFading_lastFrameNumber.
    unfold stale in S. apply Z.ltb_lt in S.
    destruct b; [ rewrite startFadeIn_eq | rewrite startFadeOut_eq ];
      rewrite S; reflexivity. }
  clearbody this1.
  assert (E : (lastFrameNumber this1 <? f' - 1)%Z = true)
    by (apply Z.ltb_lt; lia).
  split; [ unfold stale; lia | ].
  rewrite startFadeIn_eq, startFadeOut_eq, E. split; reflexivity.
Qed.

Lemma start_does_not_record_frame_witness :
  startFadeIn 4 500 (after (updateFading 400 false)
                           (startFadeIn 3 100 newRenderState))
  = mkRenderState FadingIn true 0 500 0 MIN_SAFE_INTEGER.
Proof.
  apply (start_does_not_record_frame
           true 3 4 100 500 400 false newRenderState);
    by_computation.
Defined.

(** X8.  A whole cycle.  On a new object, a fade-in checked at a time
    [t0], an update at least 800 later, a fade-out checked in the next
    frame at a time [t2] and an update at least 800 after that leave the
    object fading in at opacity 0, faded in at opacity 1, fading out at
    opacity 1 and faded out at opacity 0, provided neither [t0] nor [t2]
    is 0. *)
Theorem fade_in_then_out_cycle :
  forall (frameNumber : Z) (t0 t1 t2 t3 : Q),
    ~ t0 == 0 -> ~ t2 == 0 ->
    DEFAULT_FADE_TIME <= t1 - t0 -> DEFAULT_FADE_TIME <= t3 - t2 ->
    history [ CallCheckStartFadeIn frameNumber t0 false;
              CallUpdateFading t1 false;
              CallCheckStartFadeOut (frameNumber + 1) t2 true;
              CallUpdateFading t3 false ]
            newRenderState
    = [ mkRenderState FadingIn true 0 t0 0 frameNumber;
        mkRenderState FadedIn true 1 t0 1 frameNumber;
        mkRenderState FadingOut true 0 t2 1 (frameNumber + 1);
        mkRenderState FadedOut false 1 t2 0 (frameNumber + 1) ].
Proof.
  intros f t0 t1 t2 t3 N0 N2 H1 H3.
  assert (S1 : call (CallCheckStartFadeIn f t0 false) newRenderState
               = mkRenderState FadingIn true 0 t0 0 f).
  { cbn [call]. rewrite checkStartFadeIn_after, startFadeIn_eq.
    cbn [newRenderState constructor m_state lastFrameNumber
         FadingState_eqb FadingState_value Z.eqb orb].
    cbv zeta. case_if; reflexivity. }
  assert (S2 : call (CallUpdateFading t1 false)
                    (mkRenderState FadingIn true 0 t0 0 f)
               = mkRenderState FadedIn true 1 t0 1 f).
  { cbn [call]. unfold after. rewrite updateFading_eq. cbv zeta.
    rewrite effectiveStartTime_nonzero by exact N0.
    cbn [m_state startTime orb lastFrameNumber].
    rewrite (proj2 (Qle_bool_iff _ _) H1). reflexivity. }
  assert (S3 : call (CallCheckStartFadeOut (f + 1) t2 true)
                    (mkRenderState FadedIn true 1 t0 1 f)
               = mkRenderState FadingOut true 0 t2 1 (f + 1)).
  { cbn [call]. rewrite checkStartFadeOut_after, startFadeOut_eq.
    cbn [orb lastFrameNumber].
    replace (f <? f + 1 - 1)%Z with false by (symmetry; apply Z.ltb_ge; lia).
    reflexivity. }
  assert (S4 : call (CallUpdateFading t3 false)
                    (mkRenderState FadingOut true 0 t2 1 (f + 1))
               = mkRenderState FadedOut false 1 t2 0 (f + 1)).
  { cbn [call]. unfold after. rewrite updateFading_eq. cbv zeta.
    rewrite effectiveStartTime_nonzero by exact N2.
    cbn [m_state startTime orb lastFrameNumber].
    rewrite (proj2 (Qle_bool_iff _ _) H3). reflexivity. }
  cbn [history]. rewrite S1, S2, S3, S4. reflexivity.
Qed.

Lemma fade_in_then_out_cycle_witness :
  history [ CallCheckStartFadeIn 2 1 false;
            CallUpdateFading 801 false;
            CallCheckStartFadeOut (2 + 1) 900 true;
            CallUpdateFading 1700 false ]
          newRenderState
  = [ mkRenderState FadingIn true 0 1 0 2;
      mkRenderState FadedIn true 1 1 1 2;
      mkRenderState FadingOut true 0 900 1 (2 + 1);
      mkRenderState FadedOut false 1 900 0 (2 + 1) ].
Proof.
  apply (fade_in_then_out_cycle 2 1 801 900 1700); by_computation.
Defined.

(** * More of the test: expected states, frame times, frame flags *)

Lemma firstn_repeat {A : Type} (x : A) (m n : nat) :
  (m <= n)%nat -> firstn m (repeat x n) = repeat x m.
Proof.
  revert n. induction m as [| m IH]; intros n H; [ reflexivity | ].
  destruct n as [| n]; [ lia | ].
  cbn [repeat firstn]. f_equal. apply IH. lia.
Qed.

(** X9.  [fadeIn], [fadeOut], [fadedIn] and [fadedOut] give one expected
    state per frame, whatever the number of frames, and keep the label
    faded in, respectively faded out, once the transition is over: from
    the fourth frame on for [fadeIn], from the third on for [fadeOut]. *)
Theorem expected_states_per_frame :
  forall n k : nat,
    List.length (fadeIn n) = n
    /\ List.length (fadeOut n) = n
    /\ List.length (fadedIn n) = n
    /\ List.length (fadedOut n) = n
    /\ ((3 <= k < n)%nat -> nth_error (fadeIn n) k = Some FadeState.FadedIn)
    /\ ((2 <= k < n)%nat -> nth_error (fadeOut n) k = Some FadeState.FadedOut).
Proof.
  intros n k.
  assert (R : forall (x : FadeState.t) (m j : nat),
             (j < m)%nat -> nth_error (repeat x m) j = Some x).
  { intros x m. induction m as [| m IH]; intros j H; [ lia | ].
    destruct j as [| j]; [ reflexivity | ]. cbn. apply IH. lia. }
  unfold fadeIn, fadeOut, fadedIn, fadedOut.
  change (List.length FADE_IN) with 4%nat.
  change (List.length FADE_OUT) with 3%nat.
  repeat split.
  - destruct (n <? 4)%nat eqn:E.
    + apply Nat.ltb_lt in E. rewrite length_firstn.
      change (List.length FADE_IN) with 4%nat. lia.
    + apply Nat.ltb_ge in E. rewrite length_app, repeat_length.
      change (List.length FADE_IN) with 4%nat. lia.
  - destruct (n <? 3)%nat eqn:E.
    + apply Nat.ltb_lt in E. rewrite length_firstn.
      change (List.length FADE_OUT) with 3%nat. lia.
    + apply Nat.ltb_ge in E. rewrite length_app, repeat_length.
      change (List.length FADE_OUT) with 3%nat. lia.
  - apply repeat_length.
  - apply repeat_length.
  - intros [H3 Hn].
    replace (n <? 4)%nat with false by (symmetry; apply Nat.ltb_ge; lia).
    destruct k as [| [| [| [| k]]]]; try lia; [ reflexivity | ].
    cbn [FADE_IN app nth_error]. apply R. lia.
  - intros [H2 Hn].
    replace (n <? 3)%nat with false by (symmetry; apply Nat.ltb_ge; lia).
    destruct k as [| [| [| k]]]; try lia; [ reflexivity | ].
    cbn [FADE_OUT app nth_error]. apply R. lia.
Qed.

Lemma expected_states_per_frame_witness :
  nth_error (fadeIn 7) 5 = Some FadeState.FadedIn
  /\ nth_error (fadeOut 7) 5 = Some FadeState.FadedOut.
Proof.
  split.
  - apply (expected_states_per_frame 7 5). lia.
  - apply (expected_states_per_frame 7 5). lia.
Defined.

(** X10.  The expected states of a longer run begin with those of a
    shorter one: the first [m] states of [fadeIn n] are [fadeIn m], and the
    same for [fadeOut]. *)
Theorem expected_states_extend :
  forall m n : nat,
    (m <= n)%nat ->
    firstn m (fadeIn n) = fadeIn m /\ firstn m (fadeOut n) = fadeOut m.
Proof.
  intros m n H. unfold fadeIn, fadeOut, fadedIn, fadedOut.
  change (List.length FADE_IN) with 4%nat.
  change (List.length FADE_OUT) with 3%nat.
  split.
  - destruct (Nat.ltb_spec n 4) as [En | En],
             (Nat.ltb_spec m 4) as [Em | Em]; try lia.
    + rewrite firstn_firstn. f_equal. lia.
    + rewrite firstn_app. change (List.length FADE_IN) with 4%nat.
      replace (m - 4)%nat with 0%nat by lia.
      cbn [firstn]. apply app_nil_r.
    + rewrite firstn_app. change (List.length FADE_IN) with 4%nat.
      rewrite firstn_all2 by (change (List.length FADE_IN) with 4%nat; lia).
      f_equal. apply firstn_repeat. lia.
  - destruct (Nat.ltb_spec n 3) as [En | En],
             (Nat.ltb_spec m 3) as [Em | Em]; try lia.
    + rewrite firstn_firstn. f_equal. lia.
    + rewrite firstn_app. change (List.length FADE_OUT) with 3%nat.
      replace (m - 3)%nat with 0%nat by lia.
      cbn [firstn]. apply app_nil_r.
    + rewrite firstn_app. change (List.length FADE_OUT) with 3%nat.
      rewrite firstn_all2 by (change (List.length FADE_OUT) with 3%nat; lia).
      f_equal. apply firstn_repeat. lia.
Qed.

Lemma expected_states_extend_witness :
  firstn 3 (fadeIn 7) = fadeIn 3 /\ firstn 3 (fadeOut 7) = fadeOut 3.
Proof. apply (expected_states_extend 3 7). lia. Defined.

(** ** Frame times *)

Lemma fadeNCycles_loop_length (count : nat) :
  forall (i : Z) (result : list Q),
    List.length (fadeNCycles_loop count i result)
    = (List.length result + 3 * count)%nat.
Proof.
  induction count as [| count IH]; intros i result; cbn [fadeNCycles_loop].
  - lia.
  - rewrite IH, length_app, length_map. cbn [FADE_CYCLE tl List.length]. lia.
Qed.

Lemma fadeNCycles_loop_prefix (count : nat) :
  forall (i : Z) (result : list Q),
    firstn (List.length result) (fadeNCycles_loop count i result) = result.
Proof.
  induction count as [| count IH]; intros i result; cbn [fadeNCycles_loop].
  - apply firstn_all.
  - pose proof (IH (i + 1)%Z
                   (result
                      ++ map (fun x => x + inject_Z i * DEFAULT_FADE_TIME)
                             (tl FADE_CYCLE))%list) as H.
    apply (f_equal (firstn (List.length result))) in H.
    rewrite firstn_firstn, length_app in H.
    replace (Nat.min (List.length result) _) with (List.length result)
      in H by lia.
    rewrite H, firstn_app, firstn_all, Nat.sub_diag. cbn [firstn].
    apply app_nil_r.
Qed.

Lemma StronglySorted_app {A : Type} (R : A -> A -> Prop) (l1 l2 : list A) :
  StronglySorted R l1 -> StronglySorted R l2 ->
  (forall x y, In x l1 -> In y l2 -> R x y) ->
  StronglySorted R (l1 ++ l2).
Proof.
  intros H1 H2 H. induction H1 as [| a l1 S1 IH F]; cbn [app].
  - exact H2.
  - constructor.
    + apply IH. intros x y Hx Hy. apply H; [ right; exact Hx | exact Hy ].
    + apply Forall_app. split; [ exact F | ].
      apply Forall_forall. intros y Hy.
      apply H; [ left; reflexivity | exact Hy ].
Qed.

Lemma fadeNCycles_loop_sorted (count : nat) :
  forall (i : Z) (result : list Q),
    StronglySorted Qlt result ->
    Forall (fun x => x <= 1 + inject_Z i * DEFAULT_FADE_TIME) result ->
    StronglySorted Qlt (fadeNCycles_loop count i result).
Proof.
  induction count as [| count IH]; intros i result S B;
    cbn [fadeNCycles_loop]; [ exact S | ].
  cbn [FADE_CYCLE tl map]. unfold INITIAL_TIME, DEFAULT_FADE_TIME in *.
  apply IH.
  - set (q := inject_Z i) in *. clearbody q.
    apply StronglySorted_app; [ exact S | | ].
    + sorted_by_lra.
    + intros x y Hx Hy. rewrite Forall_forall in B. specialize (B x Hx).
      cbn [In] in Hy. destruct Hy as [<- | [<- | [<- | []]]];
        unfold Qdiv; change (/ 3) with (1 # 3); change (/ 2) with (1 # 2);
        lra.
  - rewrite inject_Z_plus. change (inject_Z 1) with 1.
    set (q := inject_Z i) in *. clearbody q.
    apply Forall_app. split.
    + rewrite Forall_forall in *. intros x Hx. specialize (B x Hx). lra.
    + sorted_by_lra.
Qed.

(** X11.  [fadeNCycles n] has no frame time for [n = 0] and [3 n + 1]
    otherwise; it begins with the four times of [FADE_CYCLE], and its
    times are strictly increasing. *)
Theorem fadeNCycles_frame_times :
  forall n : nat,
    List.length (fadeNCycles n)
    = match n with O => O | S _ => (3 * n + 1)%nat end
    /\ firstn 4 (fadeNCycles n)
       = match n with O => [] | S _ => FADE_CYCLE end
    /\ StronglySorted Qlt (fadeNCycles n).
Proof.
  intros [| m]; cbn [fadeNCycles].
  - repeat split. constructor.
  - split; [ | split ].
    + rewrite fadeNCycles_loop_length. cbn [FADE_CYCLE List.length]. lia.
    + apply (fadeNCycles_loop_prefix m 1 FADE_CYCLE).
    + apply fadeNCycles_loop_sorted.
      * unfold FADE_CYCLE, INITIAL_TIME, DEFAULT_FADE_TIME.
        sorted_by_lra.
      * unfold FADE_CYCLE, INITIAL_TIME, DEFAULT_FADE_TIME.
        change (inject_Z 1) with 1. sorted_by_lra.
Qed.

(** ** Frame flags *)

Lemma fill_from_repeat (m : nat) :
  forall i k final : nat,
    FrameFlags.fill_from i true k final (repeat false m)
    = map (fun j => (k <=? j)%nat && (j <? final)%nat) (seq i m).
Proof.
  induction m as [| m IH]; intros i k final;
    cbn [repeat FrameFlags.fill_from seq map]; [ reflexivity | ].
  rewrite IH. f_equal.
  destruct ((k <=? i)%nat && (i <? final)%nat); reflexivity.
Qed.

Lemma ltb_seq_repeat (len : nat) :
  forall i n : nat,
    map (fun j => (j <? n)%nat) (seq i len)
    = (repeat true (Nat.min (n - i) len)
         ++ repeat false (len - (n - i)))%list.
Proof.
  induction len as [| len IH]; intros i n; cbn [seq map].
  - rewrite Nat.min_0_r. reflexivity.
  - rewrite IH. destruct (Nat.ltb_spec i n) as [H | H].
    + replace (Nat.min (n - i) (S len))
        with (S (Nat.min (n - S i) len)) by lia.
      replace (S len - (n - i))%nat with (len - (n - S i))%nat by lia.
      reflexivity.
    + replace (n - S i)%nat with 0%nat by lia.
      replace (n - i)%nat with 0%nat by lia.
      cbn [Nat.min repeat app]. rewrite Nat.sub_0_r. reflexivity.
Qed.

Lemma nth_error_map_seq {A : Type} (f : nat -> A) (len j : nat) :
  nth_error (map f (seq 0 len)) j
  = if (j <? len)%nat then Some (f j) else None.
Proof.
  destruct (Nat.ltb_spec j len) as [H | H].
  - rewrite nth_error_map, nth_error_seq.
    replace (j <? len)%nat with true by (symmetry; apply Nat.ltb_lt; lia).
    reflexivity.
  - apply nth_error_None. rewrite length_map, length_seq. exact H.
Qed.

Lemma firstNFrames_as_map (frames : list Q) (n : nat) :
  firstNFrames frames n
  = map (fun j => (j <? n)%nat) (seq 0 (List.length frames))
  /\ FrameFlags.firstNFrames_fill frames n
     = map (fun j => (j <? n)%nat) (seq 0 (List.length frames)).
Proof.
  split.
  - unfold firstNFrames. rewrite ltb_seq_repeat, !Nat.sub_0_r. reflexivity.
  - unfold FrameFlags.firstNFrames_fill, FrameFlags.fill,
      FrameFlags.newFalseArray.
    rewrite repeat_length, fill_from_repeat.
    apply map_ext_in. intros j Hj. apply in_seq in Hj.
    unfold FrameFlags.relativeIndex. cbn [Z.ltb Z.compare Z.to_nat Nat.min].
    replace (Z.of_nat n <? 0)%Z with false by (symmetry; apply Z.ltb_ge; lia).
    rewrite Nat2Z.id. cbn [Nat.leb andb].
    destruct (Nat.ltb_spec j (Nat.min n (List.length frames))),
             (Nat.ltb_spec j n); try reflexivity; lia.
Qed.

Lemma lastNFrames_as_map (frames : list Q) (n : nat) :
  FrameFlags.lastNFrames frames n
  = map (fun j => if (n =? 0)%nat then true
                  else (List.length frames - n <=? j)%nat)
        (seq 0 (List.length frames)).
Proof.
  unfold FrameFlags.lastNFrames, FrameFlags.fill, FrameFlags.newFalseArray.
  rewrite repeat_length, fill_from_repeat.
  apply map_ext_in. intros j Hj. apply in_seq in Hj.
  unfold FrameFlags.relativeIndex.
  replace (Z.of_nat (List.length frames) <? 0)%Z
    with false by (symmetry; apply Z.ltb_ge; lia).
  rewrite Nat2Z.id, Nat.min_id.
  replace (j <? List.length frames)%nat
    with true by (symmetry; apply Nat.ltb_lt; lia).
  rewrite andb_true_r.
  destruct n as [| n].
  - reflexivity.
  - replace (- Z.of_nat (S n) <? 0)%Z
      with true by (symmetry; apply Z.ltb_lt; lia).
    cbn [Nat.eqb].
    replace (Z.to_nat (Z.max (Z.of_nat (List.length frames)
                              + - Z.of_nat (S n)) 0))
      with (List.length frames - S n)%nat by lia.
    reflexivity.
Qed.

(** X12.  [firstNFrames frames n], written in the source with two
    [Array.fill], has one flag per frame, and the flag of frame [j] tells
    whether [j < n]; when [n] exceeds the number of frames every frame is
    flagged. *)
Theorem firstNFrames_flags :
  forall (frames : list Q) (n j : nat),
    firstNFrames frames n = FrameFlags.firstNFrames_fill frames n
    /\ List.length (firstNFrames frames n) = List.length frames
    /\ nth_error (firstNFrames frames n) j
       = (if (j <? List.length frames)%nat then Some (j <? n)%nat else None)
    /\ ((List.length frames <= n)%nat ->
        firstNFrames frames n = allFrames frames).
Proof.
  intros frames n j.
  destruct (firstNFrames_as_map frames n) as [E F].
  split; [ now rewrite E, F | ].
  split; [ rewrite E, length_map, length_seq; reflexivity | ].
  split; [ rewrite E; apply (nth_error_map_seq (fun j => (j <? n)%nat)) | ].
  intro H. unfold firstNFrames, allFrames.
  replace (Nat.min n (List.length frames)) with (List.length frames) by lia.
  replace (List.length frames - n)%nat with 0%nat by lia.
  apply app_nil_r.
Qed.

Lemma firstNFrames_flags_witness :
  firstNFrames [1; 2; 3] 5 = allFrames [1; 2; 3].
Proof.
  apply (firstNFrames_flags [1; 2; 3] 5 0). cbn [List.length]. lia.
Defined.

(** X13.  [lastNFrames frames n] flags the last [n] frames when [n] is
    positive, but every frame when [n] is 0: the start index [-0] of the
    [fill] is the index 0.  It is therefore the negation of
    [firstNFrames frames (length - n)] for a positive [n] up to the number
    of frames, and the opposite of that negation for [n = 0] as soon as
    there is a frame. *)
Theorem lastNFrames_flags :
  forall (frames : list Q) (n j : nat),
    nth_error (FrameFlags.lastNFrames frames n) j
    = (if (j <? List.length frames)%nat
       then Some (if (n =? 0)%nat then true
                  else (List.length frames - n <=? j)%nat)
       else None)
    /\ FrameFlags.lastNFrames frames 0 = allFrames frames
    /\ ((0 < n <= List.length frames)%nat ->
        FrameFlags.lastNFrames frames n
        = FrameFlags.not (firstNFrames frames (List.length frames - n)))
    /\ (frames <> [] ->
        FrameFlags.lastNFrames frames 0
        <> FrameFlags.not (firstNFrames frames (List.length frames - 0))).
Proof.
  intros frames n j.
  assert (Z0 : FrameFlags.lastNFrames frames 0 = allFrames frames).
  { rewrite lastNFrames_as_map. cbn [Nat.eqb]. unfold allFrames.
    generalize (List.length frames) as len. intro len.
    generalize 0%nat as i. induction len as [| len IH]; intro i;
      cbn [seq map repeat]; [ reflexivity | ]. now rewrite IH. }
  split.
  { rewrite lastNFrames_as_map.
    apply (nth_error_map_seq
             (fun j => if (n =? 0)%nat then true
                       else (List.length frames - n <=? j)%nat)). }
  split; [ exact Z0 | ].
  split.
  - intros [Hn Hlen].
    destruct (firstNFrames_as_map frames (List.length frames - n)) as [E _].
    rewrite lastNFrames_as_map, E. unfold FrameFlags.not.
    rewrite map_map. apply map_ext_in. intros i Hi.
    replace (n =? 0)%nat with false by (symmetry; apply Nat.eqb_neq; lia).
    destruct (Nat.leb_spec (List.length frames - n) i),
             (Nat.ltb_spec i (List.length frames - n));
      try reflexivity; lia.
  - intros Hne E. rewrite Z0 in E.
    destruct frames as [| x frames]; [ congruence | ].
    unfold allFrames, firstNFrames, FrameFlags.not in E.
    rewrite Nat.sub_0_r, Nat.min_id, Nat.sub_diag in E.
    cbn [List.length repeat app map negb] in E. discriminate E.
Qed.

Lemma lastNFrames_flags_witness :
  FrameFlags.lastNFrames [1; 2; 3] 2
  = FrameFlags.not (firstNFrames [1; 2; 3] (List.length [1; 2; 3] - 2))
  /\ FrameFlags.lastNFrames [1; 2; 3] 0
     <> FrameFlags.not (firstNFrames [1; 2; 3] (List.length [1; 2; 3] - 0)).
Proof.
  split.
  - apply (lastNFrames_flags [1; 2; 3] 2 0). cbn [List.length]. lia.
  - apply (lastNFrames_flags [1; 2; 3] 0 0). discriminate.
Defined.

(** ** The check of a frame *)

(** X14.  What a passed [checkTextElementState] guarantees.  A label that
    was not drawn passes as [FadedOut] only, and the opacity remembered
    for the next frame is 0.  A label that was drawn never passes as
    [FadedOut]; when it passes, the opacity remembered is the one drawn,
    it lies in [0, 1], and it is above the previous one for [FadingIn],
    below it for [FadingOut], equal to 1 for [FadedIn].  So no frame
    passes both as [FadingIn] and as [FadingOut]. *)
Theorem passed_check_guarantees :
  forall (rendered : option Q) (expectedState : FadeState.t)
         (prevOpacity newOpacity : Q),
    checkTextElementState rendered expectedState prevOpacity
    = Some newOpacity ->
    match rendered with
    | None => expectedState = FadeState.FadedOut /\ newOpacity = 0
    | Some actualOpacity =>
        newOpacity = actualOpacity
        /\ 0 <= actualOpacity /\ actualOpacity <= 1
        /\ match expectedState with
           | FadeState.FadingIn => prevOpacity < actualOpacity
           | FadeState.FadingOut => actualOpacity < prevOpacity
           | FadeState.FadedIn => actualOpacity == 1
           | FadeState.FadedOut => False
           end
        /\ (expectedState = FadeState.FadingIn ->
            checkTextElementState rendered FadeState.FadingOut prevOpacity
            = None)
    end.
Proof.
  intros rendered s prev o H.
  destruct rendered as [a |].
  - assert (K : forall m, checkTextElementRendered (Some a) m = Some o ->
                          o = a /\ 0 <= a /\ a <= 1 /\ m a = true).
    { intros m Hm. unfold checkTextElementRendered, checkOpacity in Hm.
      destruct (Qle_bool 0 a) eqn:E0; [ | discriminate Hm ].
      destruct (Qle_bool a 1) eqn:E1; [ | discriminate Hm ].
      destruct (m a) eqn:Em; [ | discriminate Hm ].
      cbn [andb] in Hm. injection Hm as <-.
      apply Qle_bool_iff in E0, E1. auto. }
    destruct s; cbn [checkTextElementState] in H.
    + apply K in H. destruct H as (-> & H0 & H1 & Hm).
      apply Qlt_bool_iff in Hm. repeat split; try assumption.
      intros _. cbn [checkTextElementState].
      unfold checkTextElementRendered, checkOpacity.
      replace (Qlt_bool a prev) with false
        by (symmetry; apply Qlt_bool_false; lra).
      rewrite andb_false_r. reflexivity.
    + apply K in H. destruct H as (-> & H0 & H1 & Hm).
      apply Qeq_bool_iff in Hm. repeat split; try assumption. discriminate.
    + apply K in H. destruct H as (-> & H0 & H1 & Hm).
      apply Qlt_bool_iff in Hm. repeat split; try assumption. discriminate.
    + discriminate H.
  - destruct s; cbn [checkTextElementState checkTextElementRendered
                     checkTextElementNotRendered] in H;
      try discriminate H.
    injection H as <-. split; reflexivity.
Qed.

Lemma passed_check_guarantees_witness :
  0 <= 1 # 2 /\ (1 # 2) <= 1 /\ (1 # 4) < 1 # 2.
Proof.
  pose proof (passed_check_guarantees
                (Some (1 # 2)) FadeState.FadingIn (1 # 4) (1 # 2) eq_refl)
    as H.
  cbv beta iota in H. destruct H as (_ & H0 & H1 & H2 & _).
  exact (conj H0 (conj H1 H2)).
Defined.

(** * The tiled GeoJSON adapter *)

Section Adapter.

Import TiledGeoJsonDataAdapter.
Local Open Scope string_scope.

Variables GeoPointLike GeoCoordinates Vector2 Vector3 DecodeInfo : Type.
Variable fromGeoPoint : GeoPointLike -> GeoCoordinates.
Variable projectPoint : GeoCoordinates -> Vector3.
Variable world2tile : Z -> DecodeInfo -> Vector3 -> bool -> Vector2.
Variable level : DecodeInfo -> Z.

(** ** Objects *)

Lemma get_set_same (k : string) (v : Value) (o : ValueMap) :
  get k (set k v o) = Some v.
Proof.
  induction o as [| [k' v'] o IH]; cbn [set get].
  - now rewrite String.eqb_refl.
  - destruct (String.eqb k k') eqn:E; cbn [get].
    + now rewrite String.eqb_refl.
    + now rewrite E.
Qed.

Lemma get_set_other (k k' : string) (v : Value) (o : ValueMap) :
  k <> k' -> get k' (set k v o) = get k' o.
Proof.
  intro N. induction o as [| [k0 v0] o IH]; cbn [set get].
  - replace (String.eqb k' k) with false
      by (symmetry; apply String.eqb_neq; congruence).
    reflexivity.
  - destruct (String.eqb k k0) eqn:E; cbn [get].
    + apply String.eqb_eq in E. subst k0.
      replace (String.eqb k' k) with false
        by (symmetry; apply String.eqb_neq; congruence).
      reflexivity.
    + now rewrite IH.
Qed.

Lemma get_fold_set (k : string) (entries : list (string * Value)) :
  forall o : ValueMap,
    get k (fold_left (fun o kv => set (fst kv) (snd kv) o) entries o)
    = match find (fun kv => String.eqb k (fst kv)) (rev entries) with
      | Some kv => Some (snd kv)
      | None => get k o
      end.
Proof.
  induction entries as [| e entries IH] using rev_ind; intro o.
  - reflexivity.
  - rewrite fold_left_app, rev_app_distr. cbn [fold_left rev app find].
    destruct (String.eqb k (fst e)) eqn:E.
    + apply String.eqb_eq in E. subst k. apply get_set_same.
    + rewrite get_set_other; [ apply IH | ].
      apply String.eqb_neq in E. congruence.
Qed.

(** In an object literal the last definition of a key wins: looking
    a key up gives the value of its last entry, and nothing when the key
    has no entry. *)
Lemma objectLiteral_last_wins :
  forall (k : string) (entries : list (string * Value)),
    get k (objectLiteral entries)
    = option_map snd
        (find (fun kv => String.eqb k (fst kv)) (rev entries)).
Proof.
  intros k entries. unfold objectLiteral. rewrite get_fold_set.
  destruct (find _ (rev entries)); reflexivity.
Qed.

(** X15.  The environment of a feature.  Whatever the properties of the
    feature, also when they have keys of these names, [$layer] is the name
    of the layer, [$geometryType] the converted type of the geometry,
    [$level] the level of the tile and [$zoom] the level minus the storage
    level offset of the processor, but never below 0; every other key has
    the value the feature gives it. *)
Theorem featureEnv_keys :
  forall (storageLevelOffset : option Z) (layerName : string)
         (feature : GeoJsonFeature GeoPointLike) (decodeInfo : DecodeInfo)
         (k : string),
    let env := featureEnv level storageLevelOffset layerName feature
                          decodeInfo in
    let offset := match storageLevelOffset with
                  | Some x => x
                  | None => 0%Z
                  end in
    get "$layer" env = Some (VString layerName)
    /\ get "$geometryType" env
       = Some (VString (convertGeometryType (type (geometry feature))))
    /\ get "$level" env = Some (VNumber (level decodeInfo))
    /\ get "$zoom" env
       = Some (VNumber (Z.max 0 (level decodeInfo - offset)))
    /\ (k <> "$layer" -> k <> "$geometryType" -> k <> "$level" ->
        k <> "$zoom" ->
        get k env = get k (objectLiteral (properties feature))).
Proof.
  intros off layerName feature decodeInfo k env offset. subst env offset.
  unfold featureEnv. rewrite !get_fold_set.
  split; [ reflexivity | ].
  split; [ reflexivity | ].
  split; [ reflexivity | ].
  split.
  - cbn [rev app find fst snd String.eqb Ascii.eqb Bool.eqb andb].
    destruct off as [x |]; [ | reflexivity ].
    destruct (Z.eqb_spec x 0) as [-> | _]; reflexivity.
  - intros N1 N2 N3 N4. cbn [rev app find fst].
    apply String.eqb_neq in N1, N2, N3, N4.
    rewrite N1, N2, N3, N4. reflexivity.
Qed.

(** ** Geometries *)

(** X16.  Every feature makes exactly one call on the processor, with the
    name of its layer and the default extents, and the method called is
    the one for the [$geometryType] of the environment it is given: the
    type is never "unknown". *)
Theorem processFeature_dispatch :
  forall (storageLevelOffset : option Z) (layerName : string)
         (feature : GeoJsonFeature GeoPointLike) (decodeInfo : DecodeInfo),
  exists c : ProcessorCall GeoCoordinates Vector2,
    processFeature fromGeoPoint projectPoint world2tile level
                   storageLevelOffset layerName feature decodeInfo
    = [c]
    /\ callLayer c = layerName
    /\ callEnv c
       = featureEnv level storageLevelOffset layerName feature decodeInfo
    /\ callKind c = convertGeometryType (type (geometry feature))
    /\ get "$geometryType" (callEnv c) = Some (VString (callKind c))
    /\ callKind c <> "unknown".
Proof.
  intros off layerName [props g] decodeInfo.
  assert (K : get "$geometryType"
                  (featureEnv level off layerName (mkGeoJsonFeature props g)
                              decodeInfo)
              = Some (VString (convertGeometryType (type g)))).
  { unfold featureEnv. rewrite get_fold_set. reflexivity. }
  unfold processFeature. cbn [geometry] in *.
  destruct g; cbn [type convertLineGeometry convertPolygonGeometry
                   convertPointGeometry];
    eexists; (split; [ reflexivity | ]);
    cbn [callLayer callEnv callKind];
    (split; [ reflexivity | ]); (split; [ reflexivity | ]);
    (split; [ reflexivity | ]); (split; [ exact K | discriminate ]).
Qed.

(** X17.  The conversions keep the shape of the coordinates: one line per
    line string with one position, tiled and untiled, per point; one
    polygon per polygon with one ring per ring and one position per point;
    one position per point.  A geometry of another kind is not
    converted. *)
Theorem conversion_keeps_shape :
  forall (g : GeoJsonGeometry GeoPointLike) (decodeInfo : DecodeInfo),
    let lines :=
      convertLineGeometry fromGeoPoint projectPoint world2tile g decodeInfo in
    let polygons :=
      convertPolygonGeometry fromGeoPoint projectPoint world2tile g
                             decodeInfo in
    let points :=
      convertPointGeometry fromGeoPoint projectPoint world2tile g
                           decodeInfo in
    let sizes (l : ILineGeometry GeoCoordinates Vector2) :=
      (List.length (untiledPositions l), List.length (positions l)) in
    let ringSizes (p : IPolygonGeometry Vector2) :=
      map (@List.length Vector2) (rings p) in
    match g with
    | LineString cs =>
        option_map (map sizes) lines
        = Some [(List.length cs, List.length cs)]
        /\ polygons = None /\ points = None
    | MultiLineString css =>
        option_map (map sizes) lines
        = Some (map (fun cs => (List.length cs, List.length cs)) css)
        /\ polygons = None /\ points = None
    | Polygon css =>
        option_map (map ringSizes) polygons
        = Some [map (@List.length GeoPointLike) css]
        /\ lines = None /\ points = None
    | MultiPolygon csss =>
        option_map (map ringSizes) polygons
        = Some (map (map (@List.length GeoPointLike)) csss)
        /\ lines = None /\ points = None
    | Point _ =>
        option_map (@List.length Vector2) points = Some 1%nat
        /\ lines = None /\ polygons = None
    | MultiPoint cs =>
        option_map (@List.length Vector2) points = Some (List.length cs)
        /\ lines = None /\ polygons = None
    end.
Proof.
  intros g decodeInfo. cbv zeta.
  assert (R : forall css : list (list GeoPointLike),
             map (@List.length Vector2)
                 (rings (convertRings fromGeoPoint projectPoint world2tile
                                      css decodeInfo))
             = map (@List.length GeoPointLike) css).
  { intro css. unfold convertRings, convertLineStringGeometry.
    cbn [rings positions]. rewrite map_map.
    apply map_ext. intro cs. apply length_map. }
  destruct g as [cs | css | css | csss | c | cs];
    cbn [convertLineGeometry convertPolygonGeometry convertPointGeometry
         option_map map];
    (split; [ | split; reflexivity ]).
  - unfold convertLineStringGeometry. cbn [untiledPositions positions].
    now rewrite !length_map.
  - f_equal. rewrite map_map. apply map_ext. intro cs.
    unfold convertLineStringGeometry. cbn [untiledPositions positions].
    now rewrite !length_map.
  - now rewrite R.
  - f_equal. rewrite map_map. apply map_ext. intro css. apply R.
  - reflexivity.
  - now rewrite length_map.
Qed.

(** ** Layers *)





End Adapter.

Lemma featureEnv_keys_witness :
  TiledGeoJsonDataAdapter.get
    "name"%string
    (TiledGeoJsonDataAdapter.featureEnv
       (fun _ : unit => 3%Z) (Some 5%Z) "roads"%string
       (TiledGeoJsonDataAdapter.mkGeoJsonFeature
          [("name"%string, TiledGeoJsonDataAdapter.VString "A1"%string);
           ("$zoom"%string, TiledGeoJsonDataAdapter.VNumber 9)]
          (TiledGeoJsonDataAdapter.Point tt)) tt)
  = TiledGeoJsonDataAdapter.get
      "name"%string
      (TiledGeoJsonDataAdapter.objectLiteral
         [("name"%string, TiledGeoJsonDataAdapter.VString "A1"%string);
          ("$zoom"%string, TiledGeoJsonDataAdapter.VNumber 9)]).
Proof.
  apply (featureEnv_keys
           unit unit (fun _ : unit => 3%Z) (Some 5%Z) "roads"%string
           (TiledGeoJsonDataAdapter.mkGeoJsonFeature
              [("name"%string, TiledGeoJsonDataAdapter.VString "A1"%string);
               ("$zoom"%string, TiledGeoJsonDataAdapter.VNumber 9)]
              (TiledGeoJsonDataAdapter.Point tt)) tt "name"%string);
    discriminate.
Defined.
